(** * pint-convert: the measured constants and the uncertainty-aware report

    A shallow embedding of [pint/pint_convert.py]: the helper [_set], the
    construction of the measured constants [_define_constants] and the
    command-line driver [main].  Numbers are binary64 floats, the unit
    registry is a finite map from unit names to converter objects, and the
    collaborators of the script (the quantity system, the uncertainties
    package, [str.format]) are operations of type classes. *)

From Stdlib Require Import ZArith Ascii String List Floats Lia.
From stdpp Require Import gmap strings pretty.

(* A decimal literal denotes the nearest binary64 value, as in Python. *)
Set Warnings "-inexact-float".

Local Open Scope Z_scope.
Local Open Scope string_scope.

(** ** Exceptions and results *)

Inductive exn : Type :=
| KeyError (key : string)
| AttributeError
| TypeError
| ValueError
| Exception (msg : string)
| LibraryError (name : string).

#[export] Instance exn_eq_dec : EqDecision exn.
Proof. solve_decision. Defined.

Inductive Result (A : Type) : Type :=
| Ok (a : A)
| Raise (e : exn).
Arguments Ok {A} a.
Arguments Raise {A} e.

(** ** Uncertain numbers *)

(** An elementary error source is identified by the serial number of the
    object that introduced it. *)
Definition source := nat.

(** Modelled from the spec: the uncertain value of the data model, a nominal
    value with the linear coefficients against the elementary error sources.
    The class of uncertain numbers itself ([ufloat] and its result type) is
    imported from [pint.compat] and is not part of the script. *)
Record UFloat : Type := {
  nominal_value : float;
  coefficients : gmap source float
}.

(** [x.n] is the short name of the nominal value. *)
Definition n (x : UFloat) : float := nominal_value x.

(** Modelled from the spec: the derived standard uncertainty, the square root
    of the sum of the squared coefficients, 0 for an empty map. *)
Definition standard_uncertainty (v : UFloat) : float :=
  PrimFloat.sqrt (map_fold (fun _ c acc => acc + c * c)%float 0%float (coefficients v)).

(** Modelled from the spec: the independent construction, one dedicated
    source [e] carrying the coefficient [sigma]. *)
Definition independent (nominal sigma : float) (e : source) : UFloat :=
  {| nominal_value := nominal; coefficients := {[ e := sigma ]} |}.

(** Relative closeness of two floats, computed in binary64. *)
Definition close_rel (tol x y : float) : bool :=
  PrimFloat.leb (PrimFloat.abs (x - y)) (tol * PrimFloat.abs y)%float.

(** ** The unit registry *)

(** The scale of a converter: a plain float in a fresh registry, an
    uncertain number once a measured constant has been injected. *)
Inductive Scale : Type :=
| Plain (f : float)
| Uncertain (u : UFloat).

(** A converter object is identified by its address. *)
Definition loc := positive.

(** [ureg._units] maps every name, symbol and alias to a definition, whose
    converter is an object that several names may share; [converters] gives
    the [scale] attribute of each converter object. *)
Record UnitRegistry : Type := {
  _units : gmap string loc;
  converters : gmap loc Scale;
  _root_units_cache : gmap string Scale;
  _cache : gmap string Scale;
  auto_reduce_dimensions : bool;
  autoconvert_offset_to_baseunit : bool;
  contexts : list string;
  default_system : string
}.

(** The state of a run: the registry object and the number of error sources
    created so far. *)
Record State : Type := {
  ureg : UnitRegistry;
  sources : source
}.

(** ** Stateful, fallible computations *)

Definition M (A : Type) : Type := State -> Result (A * State).

Definition ret {A} (a : A) : M A := fun s => Ok (a, s).
Definition raise {A} (e : exn) : M A := fun _ => Raise e.
Definition bind {A B} (m : M A) (k : A -> M B) : M B :=
  fun s => match m s with
           | Ok (a, s') => k a s'
           | Raise e => Raise e
           end.
Definition lift {A} (r : Result A) : M A :=
  fun s => match r with Ok a => Ok (a, s) | Raise e => Raise e end.
Definition get_ureg : M UnitRegistry := fun s => Ok (ureg s, s).
Definition put_ureg (r : UnitRegistry) : M unit :=
  fun s => Ok (tt, {| ureg := r; sources := sources s |}).

Declare Scope py_scope.
Delimit Scope py_scope with py.
Notation "'let*' x := m 'in' k" := (bind m (fun x => k))
  (at level 10, x name, m at level 200, k at level 200) : py_scope.
Local Open Scope py_scope.

(** [with contextlib.suppress(Exception): body]: the outcome of the body when
    it completes, nothing when it raises.  The bodies suppressed in this
    script do not write to the registry, and a source that they create
    before they raise is not used afterwards. *)
Definition suppress {A} (body : M A) : M (option A) :=
  fun s => match body s with
           | Ok (a, s') => Ok (Some a, s')
           | Raise _ => Ok (None, s)
           end.

(** [try: body except AttributeError: raise e]. *)
Definition except_AttributeError {A} (body : M A) (e : exn) : M A :=
  fun s => match body s with
           | Raise AttributeError => Raise e
           | r => r
           end.

(** ** [ufloat] *)

(** Modelled from the spec: [ufloat(nominal, sigma)] yields the independent
    uncertain value on a source of its own.  Only a float is accepted as the
    nominal value; an uncertain number there is a [TypeError]. *)
Definition ufloat (nominal : Scale) (sigma : float) : M UFloat :=
  fun s => match nominal with
           | Plain f =>
               Ok (independent f sigma (sources s),
                   {| ureg := ureg s; sources := S (sources s) |})
           | Uncertain _ => Raise TypeError
           end.

(** ** The collaborators of the script *)

(** The part of the uncertainties package that builds correlated values.
    It receives the (scale, sigma) pairs, the correlation matrix and the
    number of sources in use, and returns the values with the new number of
    sources; an [AttributeError] is what the lookup of the function raises
    when the package was loaded without numpy. *)
Class Uncertainties : Type := {
  HAS_UNCERTAINTIES : bool;
  correlated_values_norm :
    list (Scale * float) -> list (list float) -> source ->
    Result (list UFloat * source)
}.

(** The registry rebuilds its caches from the unit table. *)
Class RegistryCache : Type := {
  _build_cache : gmap string loc -> gmap loc Scale -> gmap string Scale
}.

(** ** [_set] and [_define_constants] *)

(** [ureg._units[key].converter.scale]; a definition without a converter
    object has no such attribute. *)
Definition get_scale (key : string) : M Scale :=
  fun s => match _units (ureg s) !! key with
           | None => Raise (KeyError key)
           | Some l => match converters (ureg s) !! l with
                       | None => Raise AttributeError
                       | Some sc => Ok (sc, s)
                       end
           end.

Definition set_converters (c : gmap loc Scale) (r : UnitRegistry) : UnitRegistry :=
  {| _units := _units r; converters := c;
     _root_units_cache := _root_units_cache r; _cache := _cache r;
     auto_reduce_dimensions := auto_reduce_dimensions r;
     autoconvert_offset_to_baseunit := autoconvert_offset_to_baseunit r;
     contexts := contexts r; default_system := default_system r |}.

Definition set__root_units_cache (c : gmap string Scale) : M unit :=
  let* r := get_ureg in
  put_ureg {| _units := _units r; converters := converters r;
              _root_units_cache := c; _cache := _cache r;
              auto_reduce_dimensions := auto_reduce_dimensions r;
              autoconvert_offset_to_baseunit := autoconvert_offset_to_baseunit r;
              contexts := contexts r; default_system := default_system r |}.

(** [ureg._build_cache()] *)
Definition build_cache `{RegistryCache} : M unit :=
  let* r := get_ureg in
  put_ureg {| _units := _units r; converters := converters r;
              _root_units_cache := _root_units_cache r;
              _cache := _build_cache (_units r) (converters r);
              auto_reduce_dimensions := auto_reduce_dimensions r;
              autoconvert_offset_to_baseunit := autoconvert_offset_to_baseunit r;
              contexts := contexts r; default_system := default_system r |}.

Definition _set (key : string) (value : Scale) : M unit :=
  fun s => match _units (ureg s) !! key with
           | None => Raise (KeyError key)
           | Some obj =>
               Ok (tt, {| ureg := set_converters (<[obj := value]> (converters (ureg s))) (ureg s);
                          sources := sources s |})
           end.

(** The correlation matrix between the measured constants, in the order
    R_i, g_e, m_u, m_e, m_p, m_n. *)
Definition corr : list (list float) :=
  [ [1.0; -0.00206; 0.00369; 0.00436; 0.00194; 0.00233];
    [-0.00206; 1.0; 0.99029; 0.99490; 0.97560; 0.52445];
    [0.00369; 0.99029; 1.0; 0.99536; 0.98516; 0.52959];
    [0.00436; 0.99490; 0.99536; 1.0; 0.98058; 0.52714];
    [0.00194; 0.97560; 0.98516; 0.98058; 1.0; 0.51521];
    [0.00233; 0.52445; 0.52959; 0.52714; 0.51521; 1.0] ]%float.

(** The standard uncertainties of the measured constants. *)
Definition sigma_R_inf : float := 0.0000000000021e7.
Definition sigma_g_e : float := 0.00000000000035.
Definition sigma_m_u : float := 0.00000000050e-27.
Definition sigma_m_e : float := 0.00000000028e-30.
Definition sigma_m_p : float := 0.00000000051e-27.
Definition sigma_m_n : float := 0.00000000095e-27.
Definition sigma_gravitational_constant : float := 0.00015e-11.
Definition sigma_d_220 : float := 0.000000032e-10.
Definition sigma_K_alpha_Cu_d_220 : float := 0.00000022.
Definition sigma_K_alpha_Mo_d_220 : float := 0.00000019.
Definition sigma_K_alpha_W_d_220 : float := 0.000000098.

Definition numpy_missing : exn :=
  Exception "Correlation cannot be calculated!
  Please install numpy package".

(** The call [uncertainties.correlated_values_norm(defs, corr)]. *)
Definition call_correlated_values_norm `{Uncertainties}
    (defs : list (Scale * float)) (c : list (list float)) : M (list UFloat) :=
  fun s => match correlated_values_norm defs c (sources s) with
           | Ok (vs, k) => Ok (vs, {| ureg := ureg s; sources := k |})
           | Raise e => Raise e
           end.

(** A constant with zero correlation: [_set(ureg, key, ufloat(scale, sigma))]. *)
Definition define_independent (key : string) (sigma : float) : M unit :=
  let* sc := get_scale key in
  let* u := ufloat sc sigma in
  _set key (Uncertain u).

Definition _define_constants `{Uncertainties} `{RegistryCache} (use_corr : bool) : M unit :=
  let* R_i := get_scale "R_inf" in
  let* g_e := get_scale "g_e" in
  let* m_u := get_scale "m_u" in
  let* m_e := get_scale "m_e" in
  let* m_p := get_scale "m_p" in
  let* m_n := get_scale "m_n" in
  let R_i := (R_i, sigma_R_inf) in
  let g_e := (g_e, sigma_g_e) in
  let m_u := (m_u, sigma_m_u) in
  let m_e := (m_e, sigma_m_e) in
  let m_p := (m_p, sigma_m_p) in
  let m_n := (m_n, sigma_m_n) in
  let* vs :=
    (if use_corr then
       except_AttributeError
         (let* vs := call_correlated_values_norm [R_i; g_e; m_u; m_e; m_p; m_n] corr in
          match vs with
          | [R_i; g_e; m_u; m_e; m_p; m_n] => ret (R_i, g_e, m_u, m_e, m_p, m_n)
          | _ => raise ValueError
          end)
         numpy_missing
     else
       let* R_i := ufloat (fst R_i) (snd R_i) in
       let* g_e := ufloat (fst g_e) (snd g_e) in
       let* m_u := ufloat (fst m_u) (snd m_u) in
       let* m_e := ufloat (fst m_e) (snd m_e) in
       let* m_p := ufloat (fst m_p) (snd m_p) in
       let* m_n := ufloat (fst m_n) (snd m_n) in
       ret (R_i, g_e, m_u, m_e, m_p, m_n)) in
  let '(R_i, g_e, m_u, m_e, m_p, m_n) := vs in
  let* _ := _set "R_inf" (Uncertain R_i) in
  let* _ := _set "g_e" (Uncertain g_e) in
  let* _ := _set "m_u" (Uncertain m_u) in
  let* _ := _set "m_e" (Uncertain m_e) in
  let* _ := _set "m_p" (Uncertain m_p) in
  let* _ := _set "m_n" (Uncertain m_n) in
  let* _ := define_independent "gravitational_constant" sigma_gravitational_constant in
  let* _ := define_independent "d_220" sigma_d_220 in
  let* _ := define_independent "K_alpha_Cu_d_220" sigma_K_alpha_Cu_d_220 in
  let* _ := define_independent "K_alpha_Mo_d_220" sigma_K_alpha_Mo_d_220 in
  let* _ := define_independent "K_alpha_W_d_220" sigma_K_alpha_W_d_220 in
  let* _ := set__root_units_cache ∅ in
  build_cache.

(** ** The correlation matrix *)

(** [m[A][B]] *)
Definition entry (m : list (list float)) (A B : nat) : option float :=
  match m !! A with
  | Some row => row !! B
  | None => None
  end.

(** ** The measured constants as a table *)

(** The constants in the order in which [_define_constants] creates their
    uncertain numbers, each with its standard uncertainty. *)
Definition measured : list (string * float) :=
  [ ("R_inf", sigma_R_inf); ("g_e", sigma_g_e); ("m_u", sigma_m_u);
    ("m_e", sigma_m_e); ("m_p", sigma_m_p); ("m_n", sigma_m_n);
    ("gravitational_constant", sigma_gravitational_constant);
    ("d_220", sigma_d_220);
    ("K_alpha_Cu_d_220", sigma_K_alpha_Cu_d_220);
    ("K_alpha_Mo_d_220", sigma_K_alpha_Mo_d_220);
    ("K_alpha_W_d_220", sigma_K_alpha_W_d_220) ].

Definition measured_constants : list string := map fst measured.

(** The six constants subject to correlation and the five without. *)
Definition correlated_constants : list (string * float) := firstn 6 measured.
Definition uncorrelated_constants : list (string * float) := skipn 6 measured.

(** The registry that [UnitRegistry()] loads, as far as the measured
    constants are concerned: each of them names a converter object of its
    own, [obj k], whose scale is the plain float [nominal k]. *)
Record fresh_constants (r : UnitRegistry)
    (obj : string -> loc) (nominal : string -> float) : Prop := {
  fresh_units : forall k, In k measured_constants -> _units r !! k = Some (obj k);
  fresh_scale : forall k, In k measured_constants ->
                          converters r !! obj k = Some (Plain (nominal k));
  fresh_distinct : forall k k', In k measured_constants -> In k' measured_constants ->
                                obj k = obj k' -> k = k'
}.

(** [scale_of r key] is [r._units[key].converter.scale] as a pure lookup. *)
Definition scale_of (r : UnitRegistry) (key : string) : option Scale :=
  match _units r !! key with
  | Some l => converters r !! l
  | None => None
  end.

(** [inject obj vals c] stores each value of [vals] as the scale of the
    converter object of its key, from left to right. *)
Definition inject (obj : string -> loc) (vals : list (string * Scale))
    (c : gmap loc Scale) : gmap loc Scale :=
  foldl (fun c kv => <[obj (fst kv) := snd kv]> c) c vals.

(** The uncertain numbers of the independent construction: the [i]-th
    constant of [consts] gets the source [i + first]. *)
Definition independent_values (nominal : string -> float) (first : source)
    (consts : list (string * float)) : list (string * Scale) :=
  imap (fun i kv => (fst kv, Uncertain (independent (nominal (fst kv)) (snd kv) (i + first)%nat)))
       consts.

(** The values of the correlated construction, for the values [vs] that the
    package returned with [first] sources in use afterwards. *)
Definition correlated_values (nominal : string -> float) (vs : list UFloat)
    (first : source) : list (string * Scale) :=
  zip (map fst correlated_constants) (map Uncertain vs)
  ++ independent_values nominal first uncorrelated_constants.

(** The registry after the constants [vals] have been injected and the
    caches rebuilt. *)
Definition with_constants `{RegistryCache} (r : UnitRegistry)
    (obj : string -> loc) (vals : list (string * Scale)) : UnitRegistry :=
  {| _units := _units r;
     converters := inject obj vals (converters r);
     _root_units_cache := ∅;
     _cache := _build_cache (_units r) (inject obj vals (converters r));
     auto_reduce_dimensions := auto_reduce_dimensions r;
     autoconvert_offset_to_baseunit := autoconvert_offset_to_baseunit r;
     contexts := contexts r; default_system := default_system r |}.

(** The (scale, sigma) pairs handed to [correlated_values_norm] on a registry
    whose scales are the plain floats [nominal]. *)
Definition correlated_defs (nominal : string -> float) : list (Scale * float) :=
  map (fun kv => (Plain (nominal (fst kv)), snd kv)) correlated_constants.

(** ** The command line and the quantity system *)

(** The namespace that [parser.parse_args()] returns. *)
Module Args.
Record t : Type := {
  system : string;       (* -s, default "SI" *)
  prec : Z;              (* -p, default 12 *)
  prec_unc : Z;          (* -u, default 2 *)
  unc : bool;            (* -U *)
  corr : bool;           (* -C clears it *)
  fr : string;
  to : option string
}.
End Args.

(** The magnitude of a quantity: a float, or an uncertain number. *)
Inductive Magnitude : Type :=
| MFloat (f : float)
| MUFloat (u : UFloat).

Record PlainQuantity : Type := {
  magnitude : Magnitude;
  units : string
}.

(** A call into a collaborator reads the registry and may create error
    sources; it does not write to the registry. *)
Definition Ext (A : Type) : Type := UnitRegistry -> source -> Result (A * source).

Definition call {A} (f : Ext A) : M A :=
  fun s => match f (ureg s) (sources s) with
           | Ok (a, k) => Ok (a, {| ureg := ureg s; sources := k |})
           | Raise e => Raise e
           end.

(** The quantity system: [ureg.Quantity(text)], [q.plus_minus(unc)],
    [q.to(units)], [q.to_base_units()] and the product of two quantities. *)
Class QuantitySystem : Type := {
  Quantity : string -> Ext PlainQuantity;
  plus_minus : PlainQuantity -> Z -> Ext PlainQuantity;
  to : PlainQuantity -> string -> Ext PlainQuantity;
  to_base_units : PlainQuantity -> Ext PlainQuantity;
  mul : PlainQuantity -> PlainQuantity -> Ext PlainQuantity
}.

(** [format(x, spec)] for the values that the script prints. *)
Class Formatting : Type := {
  format_float : string -> float -> Result string;
  format_ufloat : string -> UFloat -> Result string;
  format_units : UnitRegistry -> string -> string -> Result string;
  format_quantity : UnitRegistry -> string -> PlainQuantity -> Result string
}.

(** Truth values of the optional locals. *)
Definition truthy_str (o : option string) : bool :=
  match o with
  | Some s => negb (String.eqb s "")
  | None => false
  end.

Definition truthy_int (o : option Z) : bool :=
  match o with
  | Some z => negb (z =? 0)%Z
  | None => false
  end.

(** ** The regular expression of line 205

    The pattern is a literal [+/-], then any run of the characters [0] and
    [.], then group 1: the longest run of digits and dots. *)

Definition is_digit (c : ascii) : bool :=
  (48 <=? nat_of_ascii c)%nat && (nat_of_ascii c <=? 57)%nat.
Definition is_dot (c : ascii) : bool := Ascii.eqb c ".".
Definition is_zero (c : ascii) : bool := Ascii.eqb c "0".

(** The text after the leftmost [+/-]. *)
Fixpoint find_plus_minus (s : string) : option string :=
  match s with
  | EmptyString => None
  | String a s' =>
      match s' with
      | String b (String c rest) =>
          if Ascii.eqb a "+" && Ascii.eqb b "/" && Ascii.eqb c "-"
          then Some rest
          else find_plus_minus s'
      | _ => None
      end
  end.

(** The longest prefix of characters satisfying [p], dropped or kept. *)
Fixpoint skip (p : ascii -> bool) (s : string) : string :=
  match s with
  | String c s' => if p c then skip p s' else s
  | EmptyString => EmptyString
  end.

Fixpoint take (p : ascii -> bool) (s : string) : string :=
  match s with
  | String c s' => if p c then String c (take p s') else EmptyString
  | EmptyString => EmptyString
  end.

(** [re.search(pattern, full).group(1)]; [None] has no attribute [group].
    Both starred classes may match the empty string, so the search succeeds
    at the leftmost [+/-] with the greedy choices. *)
Definition search_group1 (full : string) : Result string :=
  match find_plus_minus full with
  | Some rest =>
      Ok (take (fun c => is_digit c || is_dot c)
            (skip (fun c => is_zero c || is_dot c) rest))
  | None => Raise AttributeError
  end.

(** [text.replace(".", "")] *)
Fixpoint remove_dots (s : string) : string :=
  match s with
  | String c s' => if is_dot c then remove_dots s' else String c (remove_dots s')
  | EmptyString => EmptyString
  end.

Definition len (s : string) : Z := Z.of_nat (String.length s).

(** ** [main] *)

(** [min(a, b)] where [b] may still be [None]. *)
Definition py_min (a : Z) (b : option Z) : Result Z :=
  match b with
  | Some b => Ok (Z.min a b)
  | None => Raise TypeError
  end.

(** [x.n] on a magnitude: a float has no such attribute. *)
Definition attr_n (m : Magnitude) : Result float :=
  match m with
  | MUFloat u => Ok (n u)
  | MFloat _ => Raise AttributeError
  end.

Definition format_magnitude `{Formatting} (spec : string) (m : Magnitude) : Result string :=
  match m with
  | MFloat f => format_float spec f
  | MUFloat u => format_ufloat spec u
  end.

Definition uncertainties_missing : exn :=
  Exception "Failed to import uncertainties library!
 Please install uncertainties package".

(** The locals of [main] after line 188. *)
Record Locals : Type := {
  q : PlainQuantity;
  nq : PlainQuantity;
  unc : option Z;
  fmt : string
}.

(** Lines 164 to 168: the registry is configured. *)
Definition configure (args : Args.t) : M unit :=
  let* r := get_ureg in
  put_ureg {| _units := _units r; converters := converters r;
              _root_units_cache := _root_units_cache r; _cache := _cache r;
              auto_reduce_dimensions := true;
              autoconvert_offset_to_baseunit := true;
              contexts := ["Gau"; "ESU"; "sp"; "energy"; "boltzmann"] ++ contexts r;
              default_system := Args.system args |}.

(** Lines 170 to 188: the quantity is read and converted. *)
Definition convert `{QuantitySystem} (args : Args.t) : M Locals :=
  let u_from := Args.fr args in
  let u_to := Args.to args in
  let unc : option Z := None in
  let factor : option string := None in
  let* q := call (Quantity u_from) in
  let fmt := "." ++ pretty (Args.prec args) ++ "g" in
  let* q := (if truthy_int unc
             then call (plus_minus q (default 0 unc))
             else ret q) in
  let* nq := (if truthy_str u_to
              then call (to q (default "" u_to))
              else call (to_base_units q)) in
  let* qs := (if truthy_str factor
              then
                let* f := call (Quantity (default "" factor)) in
                let* q := call (mul q f) in
                let* f := call (Quantity (default "" factor)) in
                let* f := call (to_base_units f) in
                let* nq := call (mul nq f) in
                ret (q, nq)
              else ret (q, nq)) in
  ret {| q := fst qs; nq := snd qs; unc := unc; fmt := fmt |}.

(** Lines 202 to 208: the body under [contextlib.suppress(Exception)]; it
    yields the number of digits to which [unc] is then bound.  The class
    test creates the uncertain number [ufloat(1, 0)]; an uncertain magnitude
    is an instance of its class, a float is not. *)
Definition count_uncertainty_digits `{Formatting} (fmt : string) (num : Magnitude) : M Z :=
  let* _ := ufloat (Plain 1) 0 in
  match num with
  | MUFloat u =>
      let* full := lift (format_ufloat fmt u) in
      let* unc := lift (search_group1 full) in
      ret (len (remove_dots unc))
  | MFloat _ => ret 0
  end.

(** Lines 198 to 210: the number of uncertainty digits that is used. *)
Definition clamp_prec_unc `{Formatting} (args : Args.t) (l : Locals) : M Z :=
  let num := magnitude (nq l) in
  let fmt := fmt l in
  let prec_unc := Args.prec_unc args in
  let* counted := suppress (count_uncertainty_digits fmt num) in
  let unc := match counted with Some d => Some d | None => unc l end in
  let* m := lift (py_min prec_unc unc) in
  ret (Z.max 0 m).

(** Lines 190 to 212. *)
Definition use_unc `{Uncertainties} `{RegistryCache} `{Formatting}
    (args : Args.t) (l : Locals) : M Z :=
  if Args.unc args then
    if negb HAS_UNCERTAINTIES then raise uncertainties_missing
    else
      let* _ := _define_constants (Args.corr args) in
      clamp_prec_unc args l
  else ret 0.

(** Lines 214 to 218: the format of the magnitude and the quantity that is
    printed.  [nq.magnitude.n * nq.units] is the nominal value in the same
    units; on a float magnitude the attribute error is suppressed. *)
Definition select_format (prec_unc : Z) (l : Locals) : string * PlainQuantity :=
  if (0 <? prec_unc)%Z
  then ("." ++ pretty prec_unc ++ "uS", nq l)
  else (fmt l,
        match attr_n (magnitude (nq l)) with
        | Ok x => {| magnitude := MFloat x; units := units (nq l) |}
        | Raise _ => nq l
        end).

(** Lines 220 and 221: ["{:} = {:<fmt>} {:~P}".format(q, nq.magnitude, nq.units)]. *)
Definition render `{Formatting} (l : Locals) (shown : string * PlainQuantity) : M string :=
  let* r := get_ureg in
  let* text_q := lift (format_quantity r "" (q l)) in
  let* text_m := lift (format_magnitude (fst shown) (magnitude (snd shown))) in
  let* text_u := lift (format_units r "~P" (units (snd shown))) in
  ret (text_q ++ " = " ++ text_m ++ " " ++ text_u).

(** The arguments of the final [format] call. *)
Definition main_format `{QuantitySystem} `{Uncertainties} `{RegistryCache} `{Formatting}
    (args : Args.t) : M (Locals * (string * PlainQuantity)) :=
  let* _ := configure args in
  let* l := convert args in
  let* prec_unc := use_unc args l in
  ret (l, select_format prec_unc l).

(** [main] returns the line that it prints. *)
Definition main `{QuantitySystem} `{Uncertainties} `{RegistryCache} `{Formatting}
    (args : Args.t) : M string :=
  let* ls := main_format args in
  render (fst ls) (snd ls).

(** ** A linear propagation engine and a small quantity system *)

(** Modelled from the spec: a plain constant lifted to an uncertain value
    with an empty coefficient map. *)
Definition lift_plain (f : float) : UFloat :=
  {| nominal_value := f; coefficients := ∅ |}.

(** Modelled from the spec: the chain rule of [combine].  Every source of
    [x] or [y] gets [dx] times its coefficient in [x] plus [dy] times its
    coefficient in [y], a missing coefficient counting as 0. *)
Definition combine (nominal dx dy : float) (x y : UFloat) : UFloat :=
  {| nominal_value := nominal;
     coefficients :=
       merge (fun a b =>
                match a, b with
                | None, None => None
                | _, _ => Some (dx * default 0 a + dy * default 0 b)%float
                end)
             (coefficients x) (coefficients y) |}.

Definition umul (x y : UFloat) : UFloat :=
  combine (n x * n y) (n y) (n x) x y.

Definition udiv (x y : UFloat) : UFloat :=
  combine (n x / n y) (1 / n y) (- (n x) / (n y * n y)) x y.

Definition as_ufloat (m : Magnitude) : UFloat :=
  match m with
  | MFloat f => lift_plain f
  | MUFloat u => u
  end.

Definition scale_magnitude (sc : Scale) : Magnitude :=
  match sc with
  | Plain f => MFloat f
  | Uncertain u => MUFloat u
  end.

Definition mul_magnitude (a b : Magnitude) : Magnitude :=
  match a, b with
  | MFloat f, MFloat g => MFloat (f * g)
  | _, _ => MUFloat (umul (as_ufloat a) (as_ufloat b))
  end.

Definition div_magnitude (a b : Magnitude) : Magnitude :=
  match a, b with
  | MFloat f, MFloat g => MFloat (f / g)
  | _, _ => MUFloat (udiv (as_ufloat a) (as_ufloat b))
  end.

Definition float_of_Z (z : Z) : float :=
  if (z <? 0)%Z then (- PrimFloat.of_uint63 (Uint63.of_Z (- z)))%float
  else PrimFloat.of_uint63 (Uint63.of_Z z).

Definition undefined_unit : exn := LibraryError "UndefinedUnitError".

(** Modelled from the spec: a unit conversion is the multiplication by a
    fixed factor.  In this quantity system every unit is a multiple of one
    base unit by the scale of its converter, a text names one unit, and the
    scale is read from the registry when the conversion is evaluated. *)
#[export] Instance scale_only : QuantitySystem := {|
  Quantity text := fun r k =>
    match _units r !! text with
    | Some _ => Ok ({| magnitude := MFloat 1; units := text |}, k)
    | None => Raise undefined_unit
    end;
  plus_minus x z := fun r k =>
    match magnitude x with
    | MFloat f =>
        Ok ({| magnitude := MUFloat (independent f (float_of_Z z) k); units := units x |}, S k)
    | MUFloat _ => Raise TypeError
    end;
  to_base_units x := fun r k =>
    match scale_of r (units x) with
    | Some sc =>
        Ok ({| magnitude := mul_magnitude (magnitude x) (scale_magnitude sc);
               units := "base" |}, k)
    | None => Raise undefined_unit
    end;
  to x target := fun r k =>
    match scale_of r (units x), scale_of r target with
    | Some sc, Some sc' =>
        Ok ({| magnitude :=
                 div_magnitude (mul_magnitude (magnitude x) (scale_magnitude sc))
                               (scale_magnitude sc');
               units := target |}, k)
    | _, _ => Raise undefined_unit
    end;
  mul x y := fun r k =>
    Ok ({| magnitude := mul_magnitude (magnitude x) (magnitude y);
           units := units x ++ "*" ++ units y |}, k)
|}.

(** ** The correlated construction *)

Fixpoint dot (a b : list float) : float :=
  match a, b with
  | x :: a', y :: b' => (x * y + dot a' b')%float
  | _, _ => 0%float
  end.

(** The entries of row [i] of the factor left of the diagonal, from the
    rows above ([Ls], the rows still to use) and the row [a] of the matrix. *)
Fixpoint cholesky_row (Ls : list (list float)) (a : list float) (acc : list float)
    : list float :=
  match Ls, a with
  | Lj :: Ls', aij :: a' =>
      cholesky_row Ls' a' (acc ++ [((aij - dot acc Lj) / List.last Lj 1)%float])%list
  | _, _ => acc
  end.

Fixpoint cholesky_rows (A : list (list float)) (i : nat) (Ls : list (list float))
    : option (list (list float)) :=
  match A with
  | [] => Some Ls
  | a :: A' =>
      let acc := cholesky_row Ls a [] in
      let d := (List.nth i a 0 - dot acc acc)%float in
      if (0 <? d)%float
      then cholesky_rows A' (S i) (Ls ++ [(acc ++ [PrimFloat.sqrt d])%list])%list
      else None
  end.

(** Modelled from the spec: a decomposition [L] of the correlation matrix
    with [L] times its transpose equal to the matrix, by Cholesky; row [i]
    of the result holds [L[i][0]] to [L[i][i]]. *)
Definition cholesky (A : list (list float)) : option (list (list float)) :=
  cholesky_rows A 0 [].

(** Modelled from the spec: [build_correlated].  The sources [first + j]
    are new; value [i] has the nominal value of [defs[i]] and the coefficient
    [sigma_i * L[i][j]] on source [j] wherever [L[i][j]] is not 0. *)
Definition build_correlated (defs : list (float * float)) (c : list (list float))
    (first : source) : Result (list UFloat * source) :=
  match cholesky c with
  | None => Raise (LibraryError "InvalidCorrelationMatrix")
  | Some L =>
      Ok (zip_with
            (fun d Li =>
               {| nominal_value := fst d;
                  coefficients :=
                    list_to_map
                      (List.filter (fun ec => negb (snd ec =? 0)%float)
                         (imap (fun j l => ((first + j)%nat, (snd d * l)%float)) Li)) |})
            defs L,
          (first + length defs)%nat)
  end.

(** The nominal value of a definition has to be a float. *)
Fixpoint float_defs (defs : list (Scale * float)) : Result (list (float * float)) :=
  match defs with
  | [] => Ok []
  | (Plain f, sigma) :: defs' =>
      match float_defs defs' with
      | Ok fs => Ok ((f, sigma) :: fs)
      | Raise e => Raise e
      end
  | (Uncertain _, _) :: _ => Raise TypeError
  end.

(** A package whose correlated construction is [build_correlated]. *)
Definition spec_package : Uncertainties :=
  {| HAS_UNCERTAINTIES := true;
     correlated_values_norm := fun defs c first =>
       match float_defs defs with
       | Ok fs => build_correlated fs c first
       | Raise e => Raise e
       end |}.

(** The covariance of two uncertain values: the dot product of their
    coefficients over the sources of the first. *)
Definition covariance (x y : UFloat) : float :=
  map_fold (fun e c acc => acc + c * default 0 (coefficients y !! e))%float
           0%float (coefficients x).

(** The package as it is when numpy is missing. *)
Definition package_without_numpy : Uncertainties :=
  {| HAS_UNCERTAINTIES := true;
     correlated_values_norm := fun _ _ _ => Raise AttributeError |}.

(** ** A sample run *)

(** A cache that records the scale behind every name. *)
Definition scale_cache : RegistryCache :=
  {| _build_cache := fun names scales =>
       omap (fun l => scales !! l) names |}.

(** A formatter that answers with a recorded rendering. *)
Definition recorded (text : string) : Formatting :=
  {| format_float := fun _ _ => Ok text;
     format_ufloat := fun _ _ => Ok text;
     format_units := fun _ _ u => Ok u;
     format_quantity := fun _ _ x => Ok (units x) |}.

(** A registry with the measured constants at their CODATA 2018 values, an
    alias of the electron mass, and two units that are not measured. *)
Definition sample_ureg : UnitRegistry :=
  {| _units := list_to_map
       [ ("R_inf", 1); ("g_e", 2); ("m_u", 3); ("m_e", 4); ("m_p", 5); ("m_n", 6);
         ("gravitational_constant", 7); ("d_220", 8); ("K_alpha_Cu_d_220", 9);
         ("K_alpha_Mo_d_220", 10); ("K_alpha_W_d_220", 11);
         ("electron_mass", 4); ("kilogram", 12); ("gram", 13) ]%positive;
     converters := list_to_map
       [ (1, Plain 1.0973731568160e7); (2, Plain (-2.00231930436256));
         (3, Plain 1.66053906660e-27); (4, Plain 9.1093837015e-31);
         (5, Plain 1.67262192369e-27); (6, Plain 1.67492749804e-27);
         (7, Plain 6.67430e-11); (8, Plain 1.920155716e-10);
         (9, Plain 0.80232719); (10, Plain 0.36940604); (11, Plain 0.108852175);
         (12, Plain 1.0); (13, Plain 0.001) ]%positive%float;
     _root_units_cache := ∅;
     _cache := ∅;
     auto_reduce_dimensions := false;
     autoconvert_offset_to_baseunit := false;
     contexts := [];
     default_system := "mks" |}.

Definition sample_state : State := {| ureg := sample_ureg; sources := 0%nat |}.

Definition sample_obj (key : string) : loc :=
  default 1%positive (_units sample_ureg !! key).

Definition sample_nominal (key : string) : float :=
  match scale_of sample_ureg key with
  | Some (Plain f) => f
  | _ => 0%float
  end.

(** [pint-convert -U -C m_e] *)
Definition sample_args : Args.t :=
  {| Args.system := "SI"; Args.prec := 12; Args.prec_unc := 2;
     Args.unc := true; Args.corr := false; Args.fr := "m_e"; Args.to := None |}.

(** ** Properties of operations *)

(** An operation leaves the registry as it found it. *)
Definition leaves_registry_unchanged {A} (op : M A) (s : State) : Prop :=
  forall a s', op s = Ok (a, s') -> ureg s' = ureg s.

(** The correlated build fails exactly when the correlation matrix has no
    decomposition, and then with [InvalidCorrelationMatrix]. *)
Definition fails_exactly_on_invalid_matrix `{Uncertainties} `{RegistryCache}
    (s : State) : Prop :=
  forall e, _define_constants true s = Raise e <->
            (e = LibraryError "InvalidCorrelationMatrix" /\ cholesky corr = None).

(** ** The digits of the uncertainty *)

(** The number of digits that lines 203 to 208 extract when they complete:
    none to extract from a float; for an uncertain number, the digits of its
    rendering after [+/-], leading zeros apart. *)
Definition digits_extractable `{Formatting} (fmt : string) (num : Magnitude) : option Z :=
  match num with
  | MFloat _ => Some 0
  | MUFloat u =>
      match format_ufloat fmt u with
      | Ok full =>
          match search_group1 full with
          | Ok digits => Some (len (remove_dots digits))
          | Raise _ => None
          end
      | Raise _ => None
      end
  end.

(** A rendering shows a zero uncertainty: after [+/-] come only zeros and
    dots, up to the end or to a character that is neither a digit nor a dot. *)
Definition zero_uncertainty_text (full : string) : bool :=
  match find_plus_minus full with
  | Some rest =>
      match skip (fun c => is_zero c || is_dot c) rest with
      | EmptyString => true
      | String c _ => negb (is_digit c || is_dot c)
      end
  | None => false
  end.

(** Under the format [spec], the formatter of uncertain numbers shows a zero
    standard uncertainty as zeros. *)
Definition shows_zero_uncertainty `{Formatting} (spec : string) : Prop :=
  forall u full,
    (standard_uncertainty u =? 0)%float = true ->
    format_ufloat spec u = Ok full ->
    zero_uncertainty_text full = true.

(** One more error source in use. *)
Definition one_more_source (s : State) : State :=
  {| ureg := ureg s; sources := S (sources s) |}.

(** The locals after the conversion of the sample run, and the locals that
    a conversion evaluated on injected constants would produce. *)
Definition sample_locals : Locals :=
  {| q := {| magnitude := MFloat 1; units := "m_e" |};
     nq := {| magnitude := MFloat 9.1093837015e-31; units := "base" |};
     unc := None;
     fmt := ".12g" |}.

Definition sample_uncertain_locals : Locals :=
  {| q := {| magnitude := MFloat 1; units := "m_e" |};
     nq := {| magnitude := MUFloat (independent 9.1093837015e-31 sigma_m_e 3%nat);
              units := "base" |};
     unc := None;
     fmt := ".12g" |}.

(** The same quantity system with no support for [plus_minus] and for the
    product of quantities. *)
Definition scale_only_without_extras : QuantitySystem :=
  {| Quantity := @Quantity scale_only;
     plus_minus := fun _ _ _ _ => Raise (LibraryError "NotImplementedError");
     to := @to scale_only;
     to_base_units := @to_base_units scale_only;
     mul := fun _ _ _ _ => Raise (LibraryError "NotImplementedError") |}.

(** ** Invariants of the registry *)

(** A name is defined: it leads to a converter object that has a scale. *)
Definition defined (r : UnitRegistry) (key : string) : Prop :=
  exists l sc, _units r !! key = Some l /\ converters r !! l = Some sc.

(** From [r] to [r'] the table of unit names, the set of converter objects
    and the settings are the same, and a converter whose scale was an
    uncertain number still has an uncertain number as its scale. *)
Record table_kept (r r' : UnitRegistry) : Prop := {
  kept_units : _units r' = _units r;
  kept_objects : dom (converters r') = dom (converters r);
  kept_uncertain : forall l u, converters r !! l = Some (Uncertain u) ->
                               exists u', converters r' !! l = Some (Uncertain u');
  kept_auto_reduce : auto_reduce_dimensions r' = auto_reduce_dimensions r;
  kept_autoconvert :
    autoconvert_offset_to_baseunit r' = autoconvert_offset_to_baseunit r;
  kept_contexts : contexts r' = contexts r;
  kept_system : default_system r' = default_system r
}.

(** The scale behind a name is an uncertain number. *)
Definition uncertain_at (r : UnitRegistry) (key : string) : Prop :=
  exists u, scale_of r key = Some (Uncertain u).

(** The state whose registry does not define the name [key]. *)
Definition forget (key : string) (s : State) : State :=
  {| ureg := {| _units := delete key (_units (ureg s));
                converters := converters (ureg s);
                _root_units_cache := _root_units_cache (ureg s);
                _cache := _cache (ureg s);
                auto_reduce_dimensions := auto_reduce_dimensions (ureg s);
                autoconvert_offset_to_baseunit :=
                  autoconvert_offset_to_baseunit (ureg s);
                contexts := contexts (ureg s);
                default_system := default_system (ureg s) |};
     sources := sources s |}.

(** Every character of a text satisfies [p]. *)
Fixpoint all_chars (p : ascii -> bool) (s : string) : bool :=
  match s with
  | String c s' => p c && all_chars p s'
  | EmptyString => true
  end.

(** A formatter whose format of an uncertain number raises. *)
Definition refusing : Formatting :=
  {| format_float := fun _ _ => Raise ValueError;
     format_ufloat := fun _ _ => Raise ValueError;
     format_units := fun _ _ u => Ok u;
     format_quantity := fun _ _ x => Ok (units x) |}.

(** The package that is not installed. *)
Definition no_package : Uncertainties :=
  {| HAS_UNCERTAINTIES := false;
     correlated_values_norm := fun _ _ _ => Raise AttributeError |}.

(** [pint-convert -p 6 m_e gram] and [pint-convert -U -C furlong]. *)
Definition gram_args : Args.t :=
  {| Args.system := "SI"; Args.prec := 6; Args.prec_unc := 2;
     Args.unc := false; Args.corr := true; Args.fr := "m_e"; Args.to := Some "gram" |}.

Definition furlong_args : Args.t :=
  {| Args.system := "SI"; Args.prec := 12; Args.prec_unc := 2;
     Args.unc := true; Args.corr := false; Args.fr := "furlong"; Args.to := None |}.

(** [pint-convert -U -C m_e ''] *)
Definition empty_target_args : Args.t :=
  {| Args.system := "SI"; Args.prec := 12; Args.prec_unc := 2;
     Args.unc := true; Args.corr := false; Args.fr := "m_e"; Args.to := Some "" |}.

(** [pint-convert -U m_e]: correlations are considered unless [-C] is given. *)
Definition correlated_args : Args.t :=
  {| Args.system := "SI"; Args.prec := 12; Args.prec_unc := 2;
     Args.unc := true; Args.corr := true; Args.fr := "m_e"; Args.to := None |}.

(** A formatter that answers with one recorded rendering for floats and
    another for uncertain numbers; it prints units by their name and a
    quantity by the name of its units. *)
Definition rendering (float_text ufloat_text : string) : Formatting :=
  {| format_float := fun _ _ => Ok float_text;
     format_ufloat := fun _ _ => Ok ufloat_text;
     format_units := fun _ _ u => Ok u;
     format_quantity := fun _ _ x => Ok (units x) |}.

(** The sample registry once the electron mass has been injected as an exact
    value, an uncertain number whose sigma is 0, and the locals after the
    conversion of [m_e] on it. *)
Definition exact_state : State :=
  {| ureg := set_converters
               (<[4%positive := Uncertain (independent 9.1093837015e-31 0 0%nat)]>
                  (converters sample_ureg))
               sample_ureg;
     sources := 1%nat |}.

Definition exact_locals : Locals :=
  {| q := {| magnitude := MFloat 1; units := "m_e" |};
     nq := {| magnitude :=
                MUFloat (umul (lift_plain 1) (independent 9.1093837015e-31 0 0%nat));
              units := "base" |};
     unc := None;
     fmt := ".12g" |}.

(** * Properties *)

Ltac each_index i :=
  destruct i as [|[|[|[|[|[|i]]]]]].

(** C9: the correlation matrix of the measured constants is square (6 by 6),
    symmetric under float equality, has a unit diagonal, and every entry lies
    in [-1, 1]. *)
Theorem corr_invariants :
  length corr = 6%nat /\
  Forall (fun row => length row = length corr) corr /\
  (forall A B a b, entry corr A B = Some a -> entry corr B A = Some b ->
                   (a =? b)%float = true) /\
  (forall A a, entry corr A A = Some a -> (a =? 1)%float = true) /\
  (forall A B a, entry corr A B = Some a ->
                 (-1 <=? a)%float = true /\ (a <=? 1)%float = true).
Proof.
  split; [reflexivity|].
  split; [repeat constructor|].
  split; [|split].
  - intros A B a b.
    each_index A; each_index B; cbn; intros Ha Hb;
      try discriminate; inversion Ha; inversion Hb; subst; reflexivity.
  - intros A a. each_index A; cbn; intros Ha;
      try discriminate; inversion Ha; subst; reflexivity.
  - intros A B a.
    each_index A; each_index B; cbn; intros Ha;
      try discriminate; inversion Ha; subst; split; reflexivity.
Qed.

Lemma corr_invariants_witness :
  entry corr 1 2 = Some 0.99029%float /\
  entry corr 2 1 = Some 0.99029%float /\
  (0.99029 =? 0.99029)%float = true.
Proof.
  split; [reflexivity|]. split; [reflexivity|].
  exact (proj1 (proj2 (proj2 corr_invariants)) 1%nat 2%nat _ _ eq_refl eq_refl).
Defined.

(** ** Stepping through computations *)

Lemma bind_Ok {A B} (m : M A) (k : A -> M B) s a s' :
  m s = Ok (a, s') -> bind m k s = k a s'.
Proof. intros E. unfold bind. now rewrite E. Qed.

Lemma bind_Raise {A B} (m : M A) (k : A -> M B) s e :
  m s = Raise e -> bind m k s = Raise e.
Proof. intros E. unfold bind. now rewrite E. Qed.

Lemma get_scale_Ok s key l sc :
  _units (ureg s) !! key = Some l -> converters (ureg s) !! l = Some sc ->
  get_scale key s = Ok (sc, s).
Proof. intros E1 E2. unfold get_scale. now rewrite E1, E2. Qed.

Lemma _set_Ok s key l v :
  _units (ureg s) !! key = Some l ->
  _set key v s =
  Ok (tt, {| ureg := set_converters (<[l := v]> (converters (ureg s))) (ureg s);
             sources := sources s |}).
Proof. intros E. unfold _set. now rewrite E. Qed.

Lemma define_independent_Ok s key l f sigma :
  _units (ureg s) !! key = Some l -> converters (ureg s) !! l = Some (Plain f) ->
  define_independent key sigma s =
  Ok (tt, {| ureg := set_converters
                       (<[l := Uncertain (independent f sigma (sources s))]> (converters (ureg s)))
                       (ureg s);
             sources := S (sources s) |}).
Proof.
  intros E1 E2. unfold define_independent.
  rewrite (bind_Ok _ _ _ _ _ (get_scale_Ok _ _ _ _ E1 E2)).
  unfold bind, ufloat. cbn [ureg sources]. 
  rewrite (_set_Ok _ _ l) by exact E1. reflexivity.
Qed.

(** ** Symbolic execution of [_define_constants] *)

Lemma set_converters_twice c c' r :
  set_converters c (set_converters c' r) = set_converters c r.
Proof. reflexivity. Qed.

Ltac norm :=
  cbn [ureg sources set_converters _units converters _root_units_cache _cache
       auto_reduce_dimensions autoconvert_offset_to_baseunit contexts
       default_system];
  rewrite ?set_converters_twice.

Ltac in_table := simpl; tauto.

Section DefineConstants.
Context `{Uncertainties} `{RegistryCache}.
Variables (s : State) (obj : string -> loc) (nominal : string -> float).
Hypothesis fresh : fresh_constants (ureg s) obj nominal.

Lemma _define_constants_independent :
  _define_constants false s =
  Ok (tt, {| ureg := with_constants (ureg s) obj
                       (independent_values nominal (sources s) measured);
             sources := (11 + sources s)%nat |}).
Proof.
  destruct fresh as [Hu Hs Hd].
  unfold _define_constants.
  do 6 (erewrite bind_Ok; [| eapply get_scale_Ok; [apply Hu | apply Hs]; in_table]).
  cbv zeta. cbn [fst snd].
  erewrite bind_Ok; [| cbv [bind ufloat ret]; cbn [ureg sources]; reflexivity].
  cbv beta iota.
  do 6 (erewrite bind_Ok; [| eapply _set_Ok; norm; apply Hu; in_table]; norm).
  do 5 (erewrite bind_Ok;
        [| eapply define_independent_Ok; norm;
           [ apply Hu; in_table
           | rewrite !lookup_insert_ne
               by (intros E; apply Hd in E; [discriminate E | in_table ..]);
             apply Hs; in_table ] ];
        norm).
  reflexivity.
Qed.

Ltac read_constants Hu Hs :=
  unfold _define_constants;
  do 6 (erewrite bind_Ok; [| eapply get_scale_Ok; [apply Hu | apply Hs]; in_table]);
  cbv zeta; cbn [fst snd].

Lemma correlated_defs_eq :
  correlated_defs nominal =
  [(Plain (nominal "R_inf"), sigma_R_inf); (Plain (nominal "g_e"), sigma_g_e);
   (Plain (nominal "m_u"), sigma_m_u); (Plain (nominal "m_e"), sigma_m_e);
   (Plain (nominal "m_p"), sigma_m_p); (Plain (nominal "m_n"), sigma_m_n)].
Proof. reflexivity. Qed.

Ltac call_package E :=
  cbv [except_AttributeError bind ret raise call_correlated_values_norm];
  rewrite E; try reflexivity.

Lemma _define_constants_correlated v1 v2 v3 v4 v5 v6 k :
  correlated_values_norm (correlated_defs nominal) corr (sources s)
    = Ok ([v1; v2; v3; v4; v5; v6], k) ->
  _define_constants true s =
  Ok (tt, {| ureg := with_constants (ureg s) obj
                       (correlated_values nominal [v1; v2; v3; v4; v5; v6] k);
             sources := (5 + k)%nat |}).
Proof.
  intros E. rewrite correlated_defs_eq in E.
  destruct fresh as [Hu Hs Hd].
  read_constants Hu Hs.
  erewrite bind_Ok; [| call_package E].
  cbv beta iota.
  do 6 (erewrite bind_Ok; [| eapply _set_Ok; norm; apply Hu; in_table]; norm).
  do 5 (erewrite bind_Ok;
        [| eapply define_independent_Ok; norm;
           [ apply Hu; in_table
           | rewrite !lookup_insert_ne
               by (intros E'; apply Hd in E'; [discriminate E' | in_table ..]);
             apply Hs; in_table ] ];
        norm).
  reflexivity.
Qed.

Lemma _define_constants_AttributeError :
  correlated_values_norm (correlated_defs nominal) corr (sources s)
    = Raise AttributeError ->
  _define_constants true s = Raise numpy_missing.
Proof.
  intros E. rewrite correlated_defs_eq in E.
  destruct fresh as [Hu Hs Hd].
  read_constants Hu Hs.
  erewrite bind_Raise; [reflexivity | call_package E].
Qed.

Lemma _define_constants_library_error e :
  correlated_values_norm (correlated_defs nominal) corr (sources s) = Raise e ->
  e <> AttributeError ->
  _define_constants true s = Raise e.
Proof.
  intros E Hne. rewrite correlated_defs_eq in E.
  destruct fresh as [Hu Hs Hd].
  read_constants Hu Hs.
  erewrite bind_Raise; [reflexivity | call_package E].
  destruct e; congruence.
Qed.

Lemma _define_constants_wrong_length vs k :
  correlated_values_norm (correlated_defs nominal) corr (sources s) = Ok (vs, k) ->
  length vs <> 6%nat ->
  _define_constants true s = Raise ValueError.
Proof.
  intros E Hne. rewrite correlated_defs_eq in E.
  destruct fresh as [Hu Hs Hd].
  read_constants Hu Hs.
  erewrite bind_Raise; [reflexivity | call_package E].
  do 7 (destruct vs as [|? vs]; try reflexivity). now simpl in Hne.
Qed.
End DefineConstants.

(** ** Injected values *)

Lemma inject_cons obj kv vals c :
  inject obj (kv :: vals) c = inject obj vals (<[obj (fst kv) := snd kv]> c).
Proof. reflexivity. Qed.

Lemma inject_lookup_other obj vals : forall c l,
  (forall k, In k (map fst vals) -> l <> obj k) ->
  inject obj vals c !! l = c !! l.
Proof.
  induction vals as [|kv vals IH]; intros c l Hl; [reflexivity|].
  rewrite inject_cons, IH.
  - apply lookup_insert_ne. intros E. apply (Hl (fst kv)); [now left | now symmetry].
  - intros k Hk. apply Hl. now right.
Qed.

Lemma inject_lookup obj vals : forall c i k v,
  (forall a b, In a (map fst vals) -> In b (map fst vals) -> obj a = obj b -> a = b) ->
  List.NoDup (map fst vals) ->
  vals !! i = Some (k, v) ->
  inject obj vals c !! obj k = Some v.
Proof.
  induction vals as [|kv vals IH]; intros c i k v Hinj Hnd Hi; [discriminate|].
  rewrite inject_cons. simpl in Hnd. inversion Hnd as [|? ? Hnotin Hnd']; subst.
  destruct i as [|i]; simpl in Hi.
  - inversion Hi; subst kv. simpl.
    rewrite inject_lookup_other; [apply lookup_insert_eq|].
    intros k' Hk' E. apply Hnotin.
    rewrite (Hinj k k'); [exact Hk' | now left | now right | exact E].
  - apply (IH _ i); [|exact Hnd'|exact Hi].
    intros a b Ha Hb. apply Hinj; now right.
Qed.

Lemma measured_constants_NoDup : List.NoDup measured_constants.
Proof.
  unfold measured_constants, measured. simpl.
  repeat (constructor; [simpl; intros Hin; repeat (destruct Hin as [Hin|Hin]; [discriminate Hin|]); exact Hin|]).
  constructor.
Qed.

Lemma with_constants_scale `{RegistryCache} r obj nominal vals i key v :
  fresh_constants r obj nominal ->
  map fst vals = measured_constants ->
  vals !! i = Some (key, v) ->
  scale_of (with_constants r obj vals) key = Some v.
Proof.
  intros [Hu Hs Hd] Hkeys Hi.
  assert (Hin : In key measured_constants).
  { rewrite <- Hkeys. apply in_map_iff. exists (key, v). split; [reflexivity|].
    apply list_elem_of_In. eapply list_elem_of_lookup_2. exact Hi. }
  unfold scale_of, with_constants. cbn [_units converters].
  rewrite (Hu _ Hin).
  apply (inject_lookup _ _ _ i); [| |exact Hi]; rewrite Hkeys.
  - exact Hd.
  - exact measured_constants_NoDup.
Qed.

Lemma with_constants_other `{RegistryCache} r obj vals l :
  map fst vals = measured_constants ->
  (forall k, In k measured_constants -> l <> obj k) ->
  converters (with_constants r obj vals) !! l = converters r !! l.
Proof.
  intros Hkeys Hl. unfold with_constants. cbn [converters].
  apply inject_lookup_other. now rewrite Hkeys.
Qed.

(** Whenever the build completes, it has injected one uncertain number per
    measured constant and nothing else. *)
Lemma _define_constants_success `{Uncertainties} `{RegistryCache} s obj nominal use_corr s' :
  fresh_constants (ureg s) obj nominal ->
  _define_constants use_corr s = Ok (tt, s') ->
  exists vals,
    ureg s' = with_constants (ureg s) obj vals /\
    map fst vals = measured_constants /\
    Forall (fun kv => exists u, snd kv = Uncertain u) vals.
Proof.
  intros Hf Hrun. destruct use_corr.
  - destruct (correlated_values_norm (correlated_defs nominal) corr (sources s))
      as [[vs k]|e] eqn:E.
    + destruct (decide (length vs = 6%nat)) as [Hlen|Hlen].
      * do 7 (destruct vs as [|? vs]; try discriminate Hlen).
        rewrite (_define_constants_correlated s obj nominal Hf _ _ _ _ _ _ _ E) in Hrun.
        inversion Hrun; subst s'. eexists. split; [reflexivity|].
        split; [reflexivity|]. repeat constructor; eexists; reflexivity.
      * rewrite (_define_constants_wrong_length s obj nominal Hf _ _ E Hlen) in Hrun.
        discriminate.
    + destruct (decide (e = AttributeError)) as [->|Hne].
      * rewrite (_define_constants_AttributeError s obj nominal Hf E) in Hrun. discriminate.
      * rewrite (_define_constants_library_error s obj nominal Hf _ E Hne) in Hrun.
        discriminate.
  - rewrite (_define_constants_independent s obj nominal Hf) in Hrun.
    inversion Hrun; subst s'. eexists. split; [reflexivity|].
    split; [reflexivity|]. repeat constructor; eexists; reflexivity.
Qed.

(** ** The sample registry *)

Ltac table_cases Hin :=
  simpl in Hin;
  repeat (destruct Hin as [Hin|Hin]; [subst|]); try contradiction.

Lemma sample_fresh : fresh_constants (ureg sample_state) sample_obj sample_nominal.
Proof.
  split.
  - intros k Hin. table_cases Hin; reflexivity.
  - intros k Hin. table_cases Hin; reflexivity.
  - intros k k' Hin Hin' E.
    table_cases Hin; table_cases Hin';
      first [reflexivity | vm_compute in E; discriminate E].
Qed.

(** ** The build writes to the registry *)

(** C3, as stated, fails: [_set] and the construction of the constants
    overwrite the scale of converters of the shared registry. *)
Lemma constants_are_written_to_the_registry :
  ~ leaves_registry_unchanged (_set "R_inf" (Uncertain (lift_plain 1))) sample_state /\
  ~ leaves_registry_unchanged
      (@_define_constants spec_package scale_cache false) sample_state.
Proof.
  split; intros Hc.
  - specialize (Hc tt _ eq_refl).
    apply (f_equal (fun r => scale_of r "R_inf")) in Hc.
    vm_compute in Hc. discriminate Hc.
  - specialize (Hc tt _ (@_define_constants_independent spec_package scale_cache
                           _ _ _ sample_fresh)).
    apply (f_equal (fun r => scale_of r "R_inf")) in Hc.
    vm_compute in Hc. discriminate Hc.
Qed.

(** C3, amended: the construction of the constants overwrites the scale of
    the converters of the eleven measured constants with uncertain numbers,
    empties the root-units cache and rebuilds the cache; the table of unit
    names, the scale of every other converter and the settings of the
    registry are unchanged. *)
Theorem _define_constants_frame `{Uncertainties} `{RegistryCache}
    s obj nominal use_corr s' :
  fresh_constants (ureg s) obj nominal ->
  _define_constants use_corr s = Ok (tt, s') ->
  _units (ureg s') = _units (ureg s) /\
  (forall l, (forall k, In k measured_constants -> l <> obj k) ->
             converters (ureg s') !! l = converters (ureg s) !! l) /\
  (forall k, In k measured_constants ->
             exists u, scale_of (ureg s') k = Some (Uncertain u)) /\
  _root_units_cache (ureg s') = ∅ /\
  _cache (ureg s') = _build_cache (_units (ureg s')) (converters (ureg s')) /\
  auto_reduce_dimensions (ureg s') = auto_reduce_dimensions (ureg s) /\
  autoconvert_offset_to_baseunit (ureg s') = autoconvert_offset_to_baseunit (ureg s) /\
  contexts (ureg s') = contexts (ureg s) /\
  default_system (ureg s') = default_system (ureg s).
Proof.
  intros Hf Hrun.
  destruct (_define_constants_success _ _ _ _ _ Hf Hrun) as (vals & -> & Hkeys & Hunc).
  split; [reflexivity|]. split; [|split].
  - intros l Hl. now apply with_constants_other.
  - intros k Hin. rewrite <- Hkeys in Hin.
    apply in_map_iff in Hin as ([k' v] & <- & Hin).
    apply list_elem_of_In, list_elem_of_lookup in Hin as [i Hi].
    rewrite Forall_lookup in Hunc. destruct (Hunc _ _ Hi) as [u Hu]. simpl in Hu. subst v.
    exists u. now apply (with_constants_scale _ _ nominal _ i).
  - repeat split; reflexivity.
Qed.

Lemma _define_constants_frame_witness :
  exists s', @_define_constants spec_package scale_cache false sample_state = Ok (tt, s') /\
             converters (ureg s') !! 12%positive = Some (Plain 1) /\
             _units (ureg s') = _units sample_ureg.
Proof.
  eexists. split; [exact (@_define_constants_independent spec_package scale_cache
                            _ _ _ sample_fresh)|].
  destruct (@_define_constants_frame spec_package scale_cache _ _ _ false _ sample_fresh
              (@_define_constants_independent spec_package scale_cache _ _ _ sample_fresh))
    as (Hunits & Hother & _).
  split; [|exact Hunits].
  rewrite Hother; [reflexivity|].
  intros k Hin. table_cases Hin; vm_compute; discriminate.
Defined.

(** ** The independent mode *)

Lemma independent_values_lookup nominal first (i : nat) key sigma :
  measured !! i = Some (key, sigma) ->
  independent_values nominal first measured !! i =
  Some (key, Uncertain (independent (nominal key) sigma (i + first)%nat)).
Proof.
  intros Hi. unfold independent_values.
  rewrite list_lookup_imap, Hi. reflexivity.
Qed.

(** C4: without correlation the build does not depend on the correlated
    construction of the package, which may even be missing, and each measured
    constant becomes an uncertain number whose only coefficient is its sigma,
    on a source of its own. *)
Theorem independent_mode_bypasses_decomposition
    (U1 U2 : Uncertainties) `{RegistryCache} s obj nominal :
  fresh_constants (ureg s) obj nominal ->
  @_define_constants U1 _ false s = @_define_constants U2 _ false s /\
  exists s',
    @_define_constants U1 _ false s = Ok (tt, s') /\
    forall (i : nat) key sigma,
      measured !! i = Some (key, sigma) ->
      scale_of (ureg s') key =
      Some (Uncertain {| nominal_value := nominal key;
                         coefficients := {[ (i + sources s)%nat := sigma ]} |}).
Proof.
  intros Hf. split; [reflexivity|].
  eexists. split; [apply (_define_constants_independent _ _ _ Hf)|].
  intros i key sigma Hi. cbn [ureg].
  apply (with_constants_scale _ _ nominal _ i _ _ Hf); [reflexivity|].
  now apply independent_values_lookup.
Qed.

Lemma independent_mode_bypasses_decomposition_witness :
  @_define_constants spec_package scale_cache false sample_state =
  @_define_constants package_without_numpy scale_cache false sample_state /\
  exists s',
    @_define_constants spec_package scale_cache false sample_state = Ok (tt, s') /\
    scale_of (ureg s') "m_e" =
    Some (Uncertain {| nominal_value := 9.1093837015e-31;
                       coefficients := {[ 3%nat := sigma_m_e ]} |}).
Proof.
  destruct (@independent_mode_bypasses_decomposition spec_package package_without_numpy
              scale_cache sample_state sample_obj sample_nominal sample_fresh)
    as (Heq & s' & Hrun & Hvals).
  split; [exact Heq|]. exists s'. split; [exact Hrun|].
  exact (Hvals 3%nat "m_e" sigma_m_e eq_refl).
Defined.

(** ** Nominal values *)

(** C5: in either mode, for a package whose correlated construction returns
    values with the nominal values it was given, the build completes and the
    nominal value of the uncertain number behind every measured constant is
    the scale that the registry held before the build. *)
Theorem nominal_values_preserved `{Uncertainties} `{RegistryCache}
    s obj nominal vs k use_corr :
  fresh_constants (ureg s) obj nominal ->
  correlated_values_norm (correlated_defs nominal) corr (sources s) = Ok (vs, k) ->
  map (fun v => Plain (nominal_value v)) vs = map fst (correlated_defs nominal) ->
  exists s',
    _define_constants use_corr s = Ok (tt, s') /\
    forall key, In key measured_constants ->
      exists u, scale_of (ureg s') key = Some (Uncertain u) /\
                scale_of (ureg s) key = Some (Plain (nominal_value u)).
Proof.
  intros Hf E Hnom.
  assert (Hold : forall key, In key measured_constants ->
                             scale_of (ureg s) key = Some (Plain (nominal key))).
  { intros key Hin. unfold scale_of.
    now rewrite (fresh_units _ _ _ Hf _ Hin), (fresh_scale _ _ _ Hf _ Hin). }
  assert (Hidx : forall key, In key measured_constants ->
                             exists (i : nat) sigma, measured !! i = Some (key, sigma)).
  { intros key Hin. apply in_map_iff in Hin as ([key' sigma] & <- & Hin).
    apply list_elem_of_In, list_elem_of_lookup in Hin as [i Hi]. now exists i, sigma. }
  destruct use_corr.
  - do 7 (destruct vs as [|? vs]; try discriminate Hnom).
    eexists. split; [apply (_define_constants_correlated _ _ _ Hf _ _ _ _ _ _ _ E)|].
    cbn [ureg]. injection Hnom as H1 H2 H3 H4 H5 H6.
    intros key Hin. rewrite (Hold _ Hin).
    destruct (Hidx _ Hin) as (i & sigma & Hi).
    match goal with
    | |- context [with_constants _ _ ?vals] =>
        assert (Hv : exists u, vals !! i = Some (key, Uncertain u) /\
                               nominal_value u = nominal key)
    end.
    { do 11 (destruct i as [|i];
             [ inversion Hi; subst; eexists; split; [reflexivity | simpl; congruence] |]).
      discriminate Hi. }
    destruct Hv as (w & Hv & Hn). exists w. split; [|now rewrite Hn].
    now apply (with_constants_scale _ _ nominal _ i _ _ Hf).
  - eexists. split; [apply (_define_constants_independent _ _ _ Hf)|].
    cbn [ureg]. intros key Hin. rewrite (Hold _ Hin).
    destruct (Hidx _ Hin) as (i & sigma & Hi).
    eexists. split.
    + apply (with_constants_scale _ _ nominal _ i _ _ Hf); [reflexivity|].
      apply independent_values_lookup. exact Hi.
    + reflexivity.
Qed.

Lemma nominal_values_preserved_witness :
  exists s',
    @_define_constants spec_package scale_cache true sample_state = Ok (tt, s') /\
    exists u, scale_of (ureg s') "m_e" = Some (Uncertain u) /\
              scale_of sample_ureg "m_e" = Some (Plain (nominal_value u)).
Proof.
  destruct (@correlated_values_norm spec_package (correlated_defs sample_nominal) corr 0%nat)
    as [[vs k]|e] eqn:E;
    [|vm_compute in E; discriminate E].
  assert (Hnom : map (fun v => Plain (nominal_value v)) vs
                 = map fst (correlated_defs sample_nominal)).
  { vm_compute in E. injection E as <- <-. reflexivity. }
  destruct (@nominal_values_preserved spec_package scale_cache
              sample_state sample_obj sample_nominal vs k true sample_fresh E Hnom)
    as (s' & Hrun & Hkeys).
  exists s'. split; [exact Hrun|].
  apply Hkeys. simpl. tauto.
Defined.

(** ** Standard uncertainties *)

Lemma standard_uncertainty_independent nominal sigma e :
  standard_uncertainty (independent nominal sigma e) =
  PrimFloat.sqrt (0 + sigma * sigma)%float.
Proof.
  unfold standard_uncertainty, independent. cbn [coefficients].
  now rewrite map_fold_singleton.
Qed.

(** C8: every uncertain number that the independent construction builds, for
    whatever nominal value the registry holds, has a standard uncertainty
    equal to its sigma within the relative tolerance 1e-9. *)
Theorem independent_variance_preserved `{Uncertainties} `{RegistryCache} s obj nominal :
  fresh_constants (ureg s) obj nominal ->
  exists s',
    _define_constants false s = Ok (tt, s') /\
    forall key sigma, In (key, sigma) measured ->
      exists u, scale_of (ureg s') key = Some (Uncertain u) /\
                nominal_value u = nominal key /\
                close_rel 1e-9 (standard_uncertainty u) sigma = true.
Proof.
  intros Hf.
  eexists. split; [apply (_define_constants_independent _ _ _ Hf)|].
  cbn [ureg]. intros key sigma Hin.
  apply list_elem_of_In, list_elem_of_lookup in Hin as [i Hi].
  eexists. split; [|split].
  - apply (with_constants_scale _ _ nominal _ i _ _ Hf); [reflexivity|].
    apply independent_values_lookup. exact Hi.
  - reflexivity.
  - rewrite standard_uncertainty_independent.
    do 11 (destruct i as [|i]; [inversion Hi; subst; vm_compute; reflexivity|]).
    discriminate Hi.
Qed.

Lemma independent_variance_preserved_witness :
  exists s',
    @_define_constants spec_package scale_cache false sample_state = Ok (tt, s') /\
    exists u, scale_of (ureg s') "g_e" = Some (Uncertain u) /\
              nominal_value u = (-2.00231930436256)%float /\
              close_rel 1e-9 (standard_uncertainty u) 0.00000000000035 = true.
Proof.
  destruct (@independent_variance_preserved spec_package scale_cache
              sample_state sample_obj sample_nominal sample_fresh)
    as (s' & Hrun & Hall).
  exists s'. split; [exact Hrun|].
  apply (Hall "g_e" sigma_g_e). simpl. tauto.
Defined.

(** ** Failures of the correlated build *)

(** C2, as stated, fails: the matrix of the script has a decomposition, and
    the correlated build still fails when the package lacks its correlated
    construction, with a plain [Exception]. *)
Lemma correlated_build_fails_without_numpy :
  cholesky corr <> None /\
  @_define_constants package_without_numpy scale_cache true sample_state
    = Raise numpy_missing /\
  ~ @fails_exactly_on_invalid_matrix package_without_numpy scale_cache sample_state.
Proof.
  assert (Hrun : @_define_constants package_without_numpy scale_cache true sample_state
                 = Raise numpy_missing).
  { apply (@_define_constants_AttributeError package_without_numpy scale_cache
             _ _ _ sample_fresh). reflexivity. }
  split; [vm_compute; discriminate|]. split; [exact Hrun|].
  intros Hc. destruct (proj1 (Hc numpy_missing) Hrun) as [Habs _]. discriminate Habs.
Qed.

(** C2, amended: the correlated build checks nothing about the matrix itself.
    It raises the plain exception "Correlation cannot be calculated!" exactly
    when the correlated construction of the package raises [AttributeError]
    (or that very exception), passes every other error of the package on
    unchanged, raises [ValueError] when the package does not return six
    values, and completes otherwise. *)
Theorem correlated_build_outcomes `{Uncertainties} `{RegistryCache} s obj nominal :
  fresh_constants (ureg s) obj nominal ->
  let outcome := correlated_values_norm (correlated_defs nominal) corr (sources s) in
  (outcome = Raise AttributeError -> _define_constants true s = Raise numpy_missing) /\
  (forall e, outcome = Raise e -> e <> AttributeError ->
             _define_constants true s = Raise e) /\
  (forall vs k, outcome = Ok (vs, k) -> length vs <> 6%nat ->
                _define_constants true s = Raise ValueError) /\
  (forall vs k, outcome = Ok (vs, k) -> length vs = 6%nat ->
                exists s', _define_constants true s = Ok (tt, s')) /\
  (_define_constants true s = Raise numpy_missing ->
   outcome = Raise AttributeError \/ outcome = Raise numpy_missing).
Proof.
  intros Hf. cbv zeta.
  assert (H1 := _define_constants_AttributeError s obj nominal Hf).
  assert (H2 := _define_constants_library_error s obj nominal Hf).
  assert (H3 := _define_constants_wrong_length s obj nominal Hf).
  assert (H4 : forall vs k,
             correlated_values_norm (correlated_defs nominal) corr (sources s) = Ok (vs, k) ->
             length vs = 6%nat ->
                            exists s', _define_constants true s = Ok (tt, s')).
  { intros vs k E Hlen. do 7 (destruct vs as [|? vs]; try discriminate Hlen).
    eexists. apply (_define_constants_correlated s obj nominal Hf _ _ _ _ _ _ _ E). }
  repeat split; try assumption.
  intros Hrun.
  destruct (correlated_values_norm (correlated_defs nominal) corr (sources s))
    as [[vs k]|e] eqn:E.
  - destruct (decide (length vs = 6%nat)) as [Hlen|Hlen].
    + destruct (H4 _ _ eq_refl Hlen) as [s' Hs']. congruence.
    + rewrite (H3 _ _ eq_refl Hlen) in Hrun. discriminate Hrun.
  - destruct (decide (e = AttributeError)) as [->|Hne]; [now left|].
    rewrite (H2 _ eq_refl Hne) in Hrun. right. congruence.
Qed.

Lemma correlated_build_outcomes_witness :
  @_define_constants package_without_numpy scale_cache true sample_state
    = Raise numpy_missing /\
  exists s', @_define_constants spec_package scale_cache true sample_state = Ok (tt, s').
Proof.
  split.
  - exact (proj1 (@correlated_build_outcomes package_without_numpy scale_cache
                    sample_state sample_obj sample_nominal sample_fresh) eq_refl).
  - destruct (@correlated_values_norm spec_package (correlated_defs sample_nominal) corr 0%nat)
      as [[vs k]|e] eqn:E; [|vm_compute in E; discriminate E].
    refine (proj1 (proj2 (proj2 (proj2
              (@correlated_build_outcomes spec_package scale_cache
                 sample_state sample_obj sample_nominal sample_fresh)))) vs k E _).
    vm_compute in E. injection E as <- <-. reflexivity.
Defined.

(** ** The correlated construction on the matrix of the script *)

Example correlated_construction_on_corr :
  match build_correlated
          (map (fun kv => (sample_nominal (fst kv), snd kv)) correlated_constants)
          corr 0%nat with
  | Ok (vs, k) =>
      k = 6%nat /\
      forallb (fun vd => close_rel 1e-9 (standard_uncertainty (fst vd)) (snd (snd vd)))
              (zip vs correlated_constants) = true /\
      forallb (fun i =>
         forallb (fun j =>
            match vs !! i, vs !! j, correlated_constants !! i, correlated_constants !! j,
                  entry corr i j with
            | Some x, Some y, Some (_, sx), Some (_, sy), Some r =>
                close_rel 1e-9 (covariance x y) (sx * sy * r)
            | _, _, _, _, _ => false
            end) (seq 0 6)) (seq 0 6) = true
  | Raise _ => False
  end.
Proof. vm_compute. repeat split; reflexivity. Qed.

(** ** The conversion *)

Lemma convert_run `{QuantitySystem} args s :
  convert args s =
  match Quantity (Args.fr args) (ureg s) (sources s) with
  | Raise e => Raise e
  | Ok (x, k) =>
      match (if truthy_str (Args.to args)
             then to x (default "" (Args.to args))
             else to_base_units x) (ureg s) k with
      | Raise e => Raise e
      | Ok (y, k') =>
          Ok ({| q := x; nq := y; unc := None;
                 fmt := "." ++ pretty (Args.prec args) ++ "g" |},
              {| ureg := ureg s; sources := k' |})
      end
  end.
Proof.
  unfold convert, bind, call, ret. cbn [truthy_int truthy_str].
  destruct (Quantity (Args.fr args) (ureg s) (sources s)) as [[x k]|e]; [|reflexivity].
  destruct (truthy_str (Args.to args)); cbn [ureg sources].
  - destruct (to x (default "" (Args.to args)) (ureg s) k) as [[y k']|e]; reflexivity.
  - destruct (to_base_units x (ureg s) k) as [[y k']|e]; reflexivity.
Qed.

Lemma convert_fmt `{QuantitySystem} args s l s' :
  convert args s = Ok (l, s') ->
  fmt l = "." ++ pretty (Args.prec args) ++ "g" /\ unc l = None.
Proof.
  rewrite convert_run.
  destruct (Quantity _ _ _) as [[x k]|]; [|discriminate].
  destruct (truthy_str (Args.to args));
    [ destruct (to x _ (ureg s) k) as [[y k']|]
    | destruct (to_base_units x (ureg s) k) as [[y k']|] ];
    try discriminate; intros [= <- _]; split; reflexivity.
Qed.

(** C10: the locals [unc] and [factor] are [None] when they are tested, so
    [plus_minus] and the product are never called.  Two quantity systems that
    differ in nothing but these two operations convert alike, [unc] is still
    [None] afterwards, and the converted quantity is [q.to(u_to)] for a
    target unit and [q.to_base_units()] without one. *)
Theorem convert_skips_uncertainty_and_factor (Q1 Q2 : QuantitySystem) args s :
  @Quantity Q1 = @Quantity Q2 ->
  @to Q1 = @to Q2 ->
  @to_base_units Q1 = @to_base_units Q2 ->
  @convert Q1 args s = @convert Q2 args s /\
  forall l s',
    @convert Q1 args s = Ok (l, s') ->
    unc l = None /\
    ureg s' = ureg s /\
    exists k,
      @Quantity Q1 (Args.fr args) (ureg s) (sources s) = Ok (q l, k) /\
      (if truthy_str (Args.to args)
       then @to Q1 (q l) (default "" (Args.to args))
       else @to_base_units Q1 (q l)) (ureg s) k = Ok (nq l, sources s').
Proof.
  intros HQ Hto Hbase. split.
  - rewrite !convert_run, HQ, Hto, Hbase. reflexivity.
  - intros l s'. rewrite convert_run.
    destruct (@Quantity Q1 (Args.fr args) (ureg s) (sources s)) as [[x k]|]; [|discriminate].
    destruct ((if truthy_str (Args.to args)
               then @to Q1 x (default "" (Args.to args))
               else @to_base_units Q1 x) (ureg s) k)
      as [[y k']|] eqn:E; [|discriminate].
    intros [= <- <-]. cbn [unc q nq ureg sources].
    split; [reflexivity|]. split; [reflexivity|]. exists k. split; [reflexivity|exact E].
Qed.

Lemma convert_skips_uncertainty_and_factor_witness :
  @convert scale_only sample_args sample_state
    = @convert scale_only_without_extras sample_args sample_state /\
  @convert scale_only sample_args sample_state = Ok (sample_locals, sample_state).
Proof.
  split; [|reflexivity].
  exact (proj1 (convert_skips_uncertainty_and_factor scale_only scale_only_without_extras
                  sample_args sample_state eq_refl eq_refl eq_refl)).
Defined.

(** ** The regular expression *)

Example search_group1_examples :
  map search_group1
    [ "(9.1093837015+/-0.0000000028)e-31"; "1.00000000000+/-0"; "1.23+/-0.04";
      "12.3+/-1.20"; "no sign"; "1+/-0.0.5.0x"; "+/-+/-12"; "1e+20+/-0.00"; "a+/+/-7" ]
  = [ Ok "28"; Ok ""; Ok "4"; Ok "1.20"; Raise AttributeError; Ok "5.0"; Ok "";
      Ok ""; Ok "7" ].
Proof. reflexivity. Qed.

Example remove_dots_example : len (remove_dots "1.20") = 3.
Proof. reflexivity. Qed.

Example format_of_prec : "." ++ pretty 12 ++ "g" = ".12g".
Proof. reflexivity. Qed.

(** The search finds a [+/-] whenever there is one, and the leftmost one. *)
Lemma find_plus_minus_Some s : forall rest,
  find_plus_minus s = Some rest ->
  exists pre, s = pre ++ "+/-" ++ rest /\ find_plus_minus (pre ++ "+/") = None.
Proof.
  induction s as [|a s IH]; intros rest; [discriminate|].
  cbn [find_plus_minus].
  destruct s as [|b [|c s']]; try discriminate.
  destruct (Ascii.eqb a "+" && Ascii.eqb b "/" && Ascii.eqb c "-") eqn:E.
  - intros [= <-].
    apply andb_prop in E as [E Ec]. apply andb_prop in E as [Ea Eb].
    apply Ascii.eqb_eq in Ea, Eb, Ec. subst. exists "". split; reflexivity.
  - intros Hrest. destruct (IH _ Hrest) as (pre & Hs & Hleft).
    exists (String a pre). split; [cbn; now rewrite Hs|].
    destruct pre as [|p [|p' pre]]; cbv [String.append] in Hs, Hleft |- *.
    + cbn. now rewrite andb_false_r.
    + injection Hs as <- -> _. cbn [find_plus_minus] in Hleft |- *.
      rewrite E. exact Hleft.
    + injection Hs as <- <- _. cbn [find_plus_minus] in Hleft |- *.
      rewrite E. exact Hleft.
Qed.

Lemma find_plus_minus_None s :
  find_plus_minus s = None -> forall pre rest, s <> pre ++ "+/-" ++ rest.
Proof.
  induction s as [|a s IH]; intros Hnone pre rest Hs.
  - destruct pre; discriminate Hs.
  - cbn [find_plus_minus] in Hnone.
    destruct pre as [|p pre].
    + cbn in Hs. injection Hs as -> ->. cbn in Hnone. discriminate Hnone.
    + cbv [String.append] in Hs. injection Hs as <- Hs.
      fold String.append in Hs.
      destruct s as [|b [|c s']].
      * destruct pre; discriminate Hs.
      * destruct pre as [|? [|]]; discriminate Hs.
      * destruct (Ascii.eqb a "+" && Ascii.eqb b "/" && Ascii.eqb c "-");
          [discriminate Hnone|].
        exact (IH Hnone _ _ Hs).
Qed.

(** ** The digits of the uncertainty *)

Lemma len_nonneg text : 0 <= len text.
Proof. unfold len. lia. Qed.

Lemma digits_extractable_nonneg `{Formatting} fmt num d :
  digits_extractable fmt num = Some d -> 0 <= d.
Proof.
  unfold digits_extractable. destruct num as [f|u].
  - intros [= <-]. lia.
  - destruct (format_ufloat fmt u) as [full|]; [|discriminate].
    destruct (search_group1 full) as [digits|]; [|discriminate].
    intros [= <-]. apply len_nonneg.
Qed.

Lemma suppress_count_uncertainty_digits `{Formatting} fmt num s :
  suppress (count_uncertainty_digits fmt num) s =
  Ok (digits_extractable fmt num,
      match digits_extractable fmt num with
      | Some _ => one_more_source s
      | None => s
      end).
Proof.
  unfold suppress, count_uncertainty_digits, digits_extractable, bind, ufloat, lift, ret.
  destruct num as [f|u]; [reflexivity|].
  destruct (format_ufloat fmt u) as [full|]; [|reflexivity].
  destruct (search_group1 full) as [digits|]; reflexivity.
Qed.

Lemma clamp_prec_unc_run `{Formatting} args l s d :
  digits_extractable (fmt l) (magnitude (nq l)) = Some d ->
  clamp_prec_unc args l s =
    Ok (Z.max 0 (Z.min (Args.prec_unc args) d), one_more_source s).
Proof.
  intros Hd. unfold clamp_prec_unc, bind.
  rewrite suppress_count_uncertainty_digits, Hd. reflexivity.
Qed.

(** C7: whatever number of uncertainty digits is requested, the number used
    is the request clamped between 0 and the number of digits extractable
    from the rendered uncertainty; a request beyond the digits available
    yields all of them, and no error is raised. *)
Theorem clamp_prec_unc_clamps `{Formatting} args l s d :
  digits_extractable (fmt l) (magnitude (nq l)) = Some d ->
  clamp_prec_unc args l s =
    Ok (Z.max 0 (Z.min (Args.prec_unc args) d), one_more_source s) /\
  0 <= Z.max 0 (Z.min (Args.prec_unc args) d) <= d /\
  (d <= Args.prec_unc args -> Z.max 0 (Z.min (Args.prec_unc args) d) = d).
Proof.
  intros Hd. assert (0 <= d) by (eapply digits_extractable_nonneg; exact Hd).
  split; [now apply clamp_prec_unc_run | lia].
Qed.

(** When the digits cannot be extracted, [unc] is still [None] at line 210. *)
Lemma clamp_prec_unc_without_digits `{Formatting} args l s :
  digits_extractable (fmt l) (magnitude (nq l)) = None ->
  unc l = None ->
  clamp_prec_unc args l s = Raise TypeError.
Proof.
  intros Hd Hu. unfold clamp_prec_unc, bind.
  rewrite suppress_count_uncertainty_digits, Hd, Hu. reflexivity.
Qed.

Lemma clamp_prec_unc_clamps_witness :
  @clamp_prec_unc (recorded "(9.1093837015+/-0.0000000028)e-31")
    sample_args sample_uncertain_locals sample_state
  = Ok (2, one_more_source sample_state).
Proof.
  exact (proj1 (@clamp_prec_unc_clamps (recorded "(9.1093837015+/-0.0000000028)e-31")
                  sample_args sample_uncertain_locals sample_state 2 eq_refl)).
Defined.

(** ** The format without uncertainty *)

Lemma zero_uncertainty_text_group1 full :
  zero_uncertainty_text full = true -> search_group1 full = Ok EmptyString.
Proof.
  unfold zero_uncertainty_text, search_group1.
  destruct (find_plus_minus full) as [rest|]; [|discriminate].
  destruct (skip _ rest) as [|c rest']; [reflexivity|].
  intros Hc. cbn [take]. apply negb_true_iff in Hc. now rewrite Hc.
Qed.

Lemma select_format_nominal l :
  select_format 0 l =
  (fmt l, {| magnitude := MFloat (nominal_value (as_ufloat (magnitude (nq l))));
             units := units (nq l) |}).
Proof.
  unfold select_format. cbn [Z.ltb Z.compare].
  destruct (nq l) as [[f|u] un]; reflexivity.
Qed.

Lemma render_float `{Formatting} l spec x un t :
  render l (spec, {| magnitude := MFloat x; units := un |}) t =
  match format_quantity (ureg t) "" (q l) with
  | Raise e => Raise e
  | Ok text_q =>
      match format_float spec x with
      | Raise e => Raise e
      | Ok text_m =>
          match format_units (ureg t) "~P" un with
          | Raise e => Raise e
          | Ok text_u => Ok (text_q ++ " = " ++ text_m ++ " " ++ text_u, t)
          end
      end
  end.
Proof.
  unfold render, bind, get_ureg, lift, ret, format_magnitude.
  cbn [fst snd magnitude units].
  destruct (format_quantity (ureg t) "" (q l)); [|reflexivity].
  destruct (format_float spec x); [|reflexivity].
  destruct (format_units (ureg t) "~P" un); reflexivity.
Qed.

(** C6: when no uncertainty digit is requested, or the standard uncertainty
    is 0 and the formatter shows it as zeros under the format of [prec]
    figures, no digit of uncertainty is used, and the line that is printed
    holds the nominal value alone, formatted as a float under the format of
    [prec] significant figures. *)
Theorem nominal_only_rendering `{QuantitySystem} `{Formatting} args s0 l s d :
  convert args s0 = Ok (l, s) ->
  digits_extractable (fmt l) (magnitude (nq l)) = Some d ->
  Args.prec_unc args <= 0 \/
    ((standard_uncertainty (as_ufloat (magnitude (nq l))) =? 0)%float = true /\
     shows_zero_uncertainty ("." ++ pretty (Args.prec args) ++ "g")) ->
  let nominal := nominal_value (as_ufloat (magnitude (nq l))) in
  let spec := "." ++ pretty (Args.prec args) ++ "g" in
  clamp_prec_unc args l s = Ok (0, one_more_source s) /\
  select_format 0 l = (spec, {| magnitude := MFloat nominal; units := units (nq l) |}) /\
  (let* prec_unc := clamp_prec_unc args l in render l (select_format prec_unc l)) s =
  match format_quantity (ureg s) "" (q l) with
  | Raise e => Raise e
  | Ok text_q =>
      match format_float spec nominal with
      | Raise e => Raise e
      | Ok text_m =>
          match format_units (ureg s) "~P" (units (nq l)) with
          | Raise e => Raise e
          | Ok text_u =>
              Ok (text_q ++ " = " ++ text_m ++ " " ++ text_u, one_more_source s)
          end
      end
  end.
Proof.
  intros Hconv Hd Hcase nominal spec.
  assert (Hfmt : fmt l = spec) by apply (convert_fmt _ _ _ _ Hconv).
  assert (Hused : Z.max 0 (Z.min (Args.prec_unc args) d) = 0).
  { pose proof (digits_extractable_nonneg _ _ _ Hd).
    destruct Hcase as [Hreq|[Hsigma Hzero]]; [lia|].
    enough (d = 0) by lia.
    unfold digits_extractable in Hd. destruct (magnitude (nq l)) as [f|u].
    - now injection Hd as <-.
    - destruct (format_ufloat (fmt l) u) as [full|] eqn:Efull; [|discriminate].
      rewrite Hfmt in Efull.
      rewrite (zero_uncertainty_text_group1 _ (Hzero _ _ Hsigma Efull)) in Hd.
      now injection Hd as <-. }
  assert (Hclamp : clamp_prec_unc args l s = Ok (0, one_more_source s))
    by (rewrite <- Hused; apply (clamp_prec_unc_run _ _ _ _ Hd)).
  assert (Hsel : select_format 0 l =
                 (spec, {| magnitude := MFloat nominal; units := units (nq l) |}))
    by (rewrite select_format_nominal, Hfmt; reflexivity).
  split; [exact Hclamp|]. split; [exact Hsel|].
  rewrite (bind_Ok _ _ _ _ _ Hclamp), Hsel, render_float. reflexivity.
Qed.

Lemma nominal_only_rendering_witness :
  (let* prec_unc := @clamp_prec_unc (rendering "9.1093837015e-31" "9.10938370150e-31+/-0")
                      sample_args exact_locals in
   @render (rendering "9.1093837015e-31" "9.10938370150e-31+/-0")
     exact_locals (select_format prec_unc exact_locals)) exact_state
  = Ok ("m_e = 9.1093837015e-31 base", one_more_source exact_state).
Proof.
  assert (Hzero : @shows_zero_uncertainty
                    (rendering "9.1093837015e-31" "9.10938370150e-31+/-0")
                    ("." ++ pretty (Args.prec sample_args) ++ "g")).
  { intros u full _ [= <-]. reflexivity. }
  assert (Hconv : @convert scale_only sample_args exact_state
                  = Ok (exact_locals, exact_state))
    by (vm_compute; reflexivity).
  assert (Hsigma : (standard_uncertainty (as_ufloat (magnitude (nq exact_locals)))
                    =? 0)%float = true)
    by (vm_compute; reflexivity).
  exact (proj2 (proj2
           (@nominal_only_rendering scale_only
              (rendering "9.1093837015e-31" "9.10938370150e-31+/-0")
              sample_args exact_state exact_locals exact_state 0
              Hconv eq_refl (or_intror (conj Hsigma Hzero))))).
Defined.

(** ** The order of conversion and injection *)

(** C1, on the run [pint-convert -U -C m_e]: the conversion is evaluated
    while the scale of [m_e] is still a plain float, and the uncertain
    constants are injected afterwards.  The magnitude that is formatted is a
    plain float under the format of 12 significant figures, although the
    registry now holds an uncertain [m_e] and the same conversion evaluated
    after the injection would carry its uncertainty. *)
Theorem uncertain_constants_arrive_after_the_conversion (F : Formatting) :
  exists s',
    @main_format scale_only spec_package scale_cache F sample_args sample_state
      = Ok ((sample_locals, (".12g", nq sample_locals)), s') /\
    magnitude (nq sample_locals) = MFloat 9.1093837015e-31 /\
    (exists u, scale_of (ureg s') "m_e" = Some (Uncertain u) /\
               standard_uncertainty u = sigma_m_e) /\
    (exists u k, to_base_units (q sample_locals) (ureg s') (sources s')
                 = Ok ({| magnitude := MUFloat u; units := "base" |}, k) /\
                 standard_uncertainty u = sigma_m_e).
Proof.
  eexists. split; [vm_compute; reflexivity|].
  split; [reflexivity|]. split.
  - eexists. split; vm_compute; reflexivity.
  - eexists. eexists. split; vm_compute; reflexivity.
Qed.

(** Whatever the flags, a magnitude that is a plain float after the
    conversion is printed without uncertainty digits: the constants injected
    by [use_unc] come too late to reach it. *)
Lemma plain_magnitude_uses_no_uncertainty_digit
    `{Uncertainties} `{RegistryCache} `{Formatting} args l s f p s' :
  magnitude (nq l) = MFloat f ->
  use_unc args l s = Ok (p, s') ->
  p = 0.
Proof.
  intros Hm. unfold use_unc.
  destruct (Args.unc args); [|now intros [= <- _]].
  destruct (negb HAS_UNCERTAINTIES); [discriminate|].
  unfold bind. destruct (_define_constants (Args.corr args) s) as [[[] s1]|]; [|discriminate].
  assert (Hd : digits_extractable (fmt l) (magnitude (nq l)) = Some 0)
    by now rewrite Hm.
  rewrite (clamp_prec_unc_run args l s1 0 Hd).
  intros [= <- _]. lia.
Qed.

(** ** Round trip of [_set] *)

(** X1: [_set] raises [KeyError] exactly when the registry does not define
    the key.  Otherwise it completes, leaves the table of names alone, and
    the new scale is read back through the key and through every other name
    of the same converter object, while a name of another converter reads
    the scale it had. *)
Theorem _set_round_trip s key v :
  (forall e, _set key v s = Raise e <->
             _units (ureg s) !! key = None /\ e = KeyError key) /\
  (forall obj, _units (ureg s) !! key = Some obj ->
     exists s',
       _set key v s = Ok (tt, s') /\
       _units (ureg s') = _units (ureg s) /\
       sources s' = sources s /\
       (forall k, _units (ureg s) !! k = Some obj -> scale_of (ureg s') k = Some v) /\
       (forall k obj', _units (ureg s) !! k = Some obj' -> obj' <> obj ->
                       scale_of (ureg s') k = scale_of (ureg s) k)).
Proof.
  split.
  - intros e. unfold _set. destruct (_units (ureg s) !! key) as [obj|].
    + split; [discriminate | intros [? _]; discriminate].
    + split; [intros [= <-]; split; reflexivity | intros [_ ->]; reflexivity].
  - intros obj Hobj. eexists. split; [apply (_set_Ok _ _ obj _ Hobj)|].
    cbn [ureg sources set_converters _units].
    split; [reflexivity|]. split; [reflexivity|]. split.
    + intros k Hk. unfold scale_of. cbn [_units converters set_converters].
      rewrite Hk. apply lookup_insert_eq.
    + intros k obj' Hk Hne. unfold scale_of. cbn [_units converters set_converters].
      rewrite Hk. now apply lookup_insert_ne.
Qed.

Lemma _set_round_trip_witness :
  exists s',
    _set "m_e" (Uncertain (lift_plain 1)) sample_state = Ok (tt, s') /\
    scale_of (ureg s') "electron_mass" = Some (Uncertain (lift_plain 1)) /\
    scale_of (ureg s') "kilogram" = Some (Plain 1).
Proof.
  destruct (proj2 (_set_round_trip sample_state "m_e" (Uncertain (lift_plain 1)))
              4%positive eq_refl) as (s' & Hrun & _ & _ & Hsame & Hother).
  exists s'. split; [exact Hrun|]. split.
  - apply Hsame. reflexivity.
  - rewrite (Hother "kilogram" 12%positive eq_refl); [reflexivity | discriminate].
Defined.

(** ** The unit table under [_define_constants], on any registry *)

Lemma table_kept_refl r : table_kept r r.
Proof. split; try reflexivity. intros l u Hl. now exists u. Qed.

Lemma table_kept_trans r1 r2 r3 :
  table_kept r1 r2 -> table_kept r2 r3 -> table_kept r1 r3.
Proof.
  intros [U1 O1 C1 A1 B1 X1 S1] [U2 O2 C2 A2 B2 X2 S2].
  split; try congruence.
  intros l u Hl. destruct (C1 _ _ Hl) as [u' Hu']. exact (C2 _ _ Hu').
Qed.

Lemma defined_kept r r' key : table_kept r r' -> defined r key -> defined r' key.
Proof.
  intros K (l & sc & Hl & Hsc).
  assert (Hin : l ∈ dom (converters r')).
  { rewrite (kept_objects _ _ K). apply elem_of_dom. now exists sc. }
  apply elem_of_dom in Hin as [sc' Hsc'].
  exists l, sc'. split; [now rewrite (kept_units _ _ K) | exact Hsc'].
Qed.

Lemma defined_kept_back r r' key : table_kept r r' -> defined r' key -> defined r key.
Proof.
  intros K (l & sc & Hl & Hsc).
  assert (Hin : l ∈ dom (converters r)).
  { rewrite <- (kept_objects _ _ K). apply elem_of_dom. now exists sc. }
  apply elem_of_dom in Hin as [sc' Hsc'].
  exists l, sc'. split; [now rewrite <- (kept_units _ _ K) | exact Hsc'].
Qed.

Lemma uncertain_kept r r' key :
  table_kept r r' -> uncertain_at r key -> uncertain_at r' key.
Proof.
  intros K [u Hu]. unfold uncertain_at, scale_of in *.
  rewrite (kept_units _ _ K).
  destruct (_units r !! key) as [l|]; [|discriminate].
  destruct (kept_uncertain _ _ K _ _ Hu) as [u' Hu']. now exists u'.
Qed.

Lemma table_kept_insert r l u :
  is_Some (converters r !! l) ->
  table_kept r (set_converters (<[l := Uncertain u]> (converters r)) r).
Proof.
  intros Hl. split; try reflexivity; cbn [set_converters converters].
  - rewrite dom_insert_L. apply elem_of_dom in Hl. set_solver.
  - intros l' u' Hl'. destruct (decide (l = l')) as [<-|Hne].
    + exists u. apply lookup_insert_eq.
    + exists u'. now rewrite lookup_insert_ne.
Qed.

Lemma bind_inv {A B} (m : M A) (k : A -> M B) s b s' :
  bind m k s = Ok (b, s') ->
  exists a s1, m s = Ok (a, s1) /\ k a s1 = Ok (b, s').
Proof.
  unfold bind. destruct (m s) as [[a s1]|]; intros H;
    [now exists a, s1 | discriminate H].
Qed.

Lemma get_scale_inv key s sc s1 :
  get_scale key s = Ok (sc, s1) ->
  s1 = s /\ exists l, _units (ureg s) !! key = Some l /\
                      converters (ureg s) !! l = Some sc.
Proof.
  unfold get_scale. destruct (_units (ureg s) !! key) as [l|]; [|discriminate].
  destruct (converters (ureg s) !! l) as [sc'|] eqn:E; [|discriminate].
  intros [= <- <-]. split; [reflexivity|]. now exists l.
Qed.

Lemma ufloat_inv sc sigma s u s1 :
  ufloat sc sigma s = Ok (u, s1) ->
  ureg s1 = ureg s /\ exists f, sc = Plain f.
Proof.
  unfold ufloat. destruct sc as [f|]; [|discriminate].
  intros [= <- <-]. split; [reflexivity|]. now exists f.
Qed.

Lemma _set_kept key u s a s1 :
  _set key (Uncertain u) s = Ok (a, s1) ->
  defined (ureg s) key ->
  table_kept (ureg s) (ureg s1) /\ uncertain_at (ureg s1) key.
Proof.
  intros Hrun (l & sc & Hl & Hsc).
  rewrite (_set_Ok _ _ l _ Hl) in Hrun. injection Hrun as _ <-.
  cbn [ureg]. split.
  - apply table_kept_insert. now exists sc.
  - exists u. unfold scale_of. cbn [set_converters _units converters].
    rewrite Hl. apply lookup_insert_eq.
Qed.

Lemma define_independent_kept key sigma s a s1 :
  define_independent key sigma s = Ok (a, s1) ->
  defined (ureg s) key /\ table_kept (ureg s) (ureg s1) /\ uncertain_at (ureg s1) key.
Proof.
  unfold define_independent. intros H.
  apply bind_inv in H as (sc & s2 & Hget & H).
  apply get_scale_inv in Hget as (-> & l & Hl & Hsc).
  apply bind_inv in H as (u & s3 & Hu & H).
  apply ufloat_inv in Hu as (Hreg & _).
  assert (Hdef : defined (ureg s3) key) by (rewrite Hreg; now exists l, sc).
  destruct (_set_kept _ _ _ _ _ H Hdef) as [K U].
  rewrite Hreg in K. split; [now exists l, sc|]. now split.
Qed.

Lemma set__root_units_cache_kept c s a s1 :
  set__root_units_cache c s = Ok (a, s1) -> table_kept (ureg s) (ureg s1).
Proof.
  intros [= _ <-]. split; try reflexivity. intros l u Hl. now exists u.
Qed.

Lemma build_cache_kept `{RegistryCache} s a s1 :
  build_cache s = Ok (a, s1) -> table_kept (ureg s) (ureg s1).
Proof.
  intros [= _ <-]. split; try reflexivity. intros l u Hl. now exists u.
Qed.

(** After a step from [p] that keeps the table, what was known at [p] is
    known at the new registry. *)
Ltac carry K Kstep :=
  repeat match goal with
         | U : uncertain_at (ureg ?p) _ |- _ =>
             lazymatch type of Kstep with
             | table_kept (ureg p) _ => apply (uncertain_kept _ _ _ Kstep) in U
             end
         end;
  let K' := fresh "K" in
  pose proof (table_kept_trans _ _ _ K Kstep) as K'; clear K Kstep; rename K' into K.

(** X2: on any registry, in either mode, whenever the build completes, the
    table of unit names, the set of converter objects and the settings are
    what they were, every measured constant was defined beforehand, and the
    scale behind every measured constant is an uncertain number afterwards. *)
Theorem _define_constants_keeps_table `{Uncertainties} `{RegistryCache} use_corr s s' :
  _define_constants use_corr s = Ok (tt, s') ->
  table_kept (ureg s) (ureg s') /\
  forall key, In key measured_constants ->
              defined (ureg s) key /\ uncertain_at (ureg s') key.
Proof.
  unfold _define_constants. intros Hrun.
  do 6 (let sc := fresh "sc" in let s1 := fresh "s" in
        let Hget := fresh "Hget" in let l := fresh "l" in
        let Hl := fresh "Hl" in let Hsc := fresh "Hsc" in
        apply bind_inv in Hrun as (sc & s1 & Hget & Hrun);
        apply get_scale_inv in Hget as (-> & l & Hl & Hsc);
        let D := fresh "D" in
        assert (D : defined (ureg s) _) by (exists l, sc; split; [exact Hl | exact Hsc]);
        clear l Hl Hsc).
  cbv zeta in Hrun. cbn [fst snd] in Hrun.
  apply bind_inv in Hrun as (vs & s0 & Hvs & Hrun).
  assert (Hreg : ureg s0 = ureg s).
  { destruct use_corr.
    - unfold except_AttributeError, bind, call_correlated_values_norm, ret, raise in Hvs.
      destruct (correlated_values_norm _ _ _) as [[us k]|e].
      + do 7 (destruct us as [|? us]; try discriminate Hvs).
        now injection Hvs as _ <-.
      + destruct e; discriminate Hvs.
    - do 6 (let u := fresh "u" in let s1 := fresh "s" in let Hu := fresh "Hu" in
            apply bind_inv in Hvs as (u & s1 & Hu & Hvs);
            apply ufloat_inv in Hu as (Hu & _)).
      injection Hvs as _ <-. congruence. }
  destruct vs as [[[[[R_i g_e] m_u] m_e] m_p] m_n].
  assert (K : table_kept (ureg s) (ureg s0)) by (rewrite Hreg; apply table_kept_refl).
  clear Hvs Hreg.
  do 6 (let a := fresh "a" in let s1 := fresh "s" in
        let Hstep := fresh "Hstep" in let Kstep := fresh "Kstep" in
        let U := fresh "U" in
        apply bind_inv in Hrun as (a & s1 & Hstep & Hrun);
        apply _set_kept in Hstep as [Kstep U];
          [| eapply defined_kept; [exact K | eassumption]];
        carry K Kstep).
  do 5 (let a := fresh "a" in let s1 := fresh "s" in
        let Hstep := fresh "Hstep" in let Kstep := fresh "Kstep" in
        let U := fresh "U" in let D := fresh "D" in
        apply bind_inv in Hrun as (a & s1 & Hstep & Hrun);
        apply define_independent_kept in Hstep as (D & Kstep & U);
        apply (defined_kept_back _ _ _ K) in D;
        carry K Kstep).
  apply bind_inv in Hrun as (x & sx & Hstep & Hrun).
  apply set__root_units_cache_kept in Hstep. carry K Hstep.
  apply build_cache_kept in Hrun. carry K Hrun.
  split; [exact K|].
  intros key Hin. table_cases Hin; split; assumption.
Qed.

Lemma _define_constants_keeps_table_witness :
  exists s',
    @_define_constants spec_package scale_cache false sample_state = Ok (tt, s') /\
    dom (converters (ureg s')) = dom (converters sample_ureg) /\
    uncertain_at (ureg s') "d_220".
Proof.
  eexists. split; [exact (@_define_constants_independent spec_package scale_cache
                            _ _ _ sample_fresh)|].
  destruct (@_define_constants_keeps_table spec_package scale_cache false _ _
              (@_define_constants_independent spec_package scale_cache _ _ _ sample_fresh))
    as [K Hall].
  split; [exact (kept_objects _ _ K)|].
  apply Hall. simpl. tauto.
Defined.

(** ** A measured constant that the registry does not define *)

Lemma get_scale_missing key s :
  _units (ureg s) !! key = None -> get_scale key s = Raise (KeyError key).
Proof. intros E. unfold get_scale. now rewrite E. Qed.

Lemma define_independent_missing key sigma s :
  _units (ureg s) !! key = None ->
  define_independent key sigma s = Raise (KeyError key).
Proof.
  intros E. unfold define_independent.
  now rewrite (bind_Raise _ _ _ _ (get_scale_missing _ _ E)).
Qed.

(** X3: on a registry that lacks one measured constant and is otherwise
    fresh, the build raises the [KeyError] of that constant: in either mode
    for the six constants subject to correlation, which are read first, and
    in independent mode for the five others. *)
Theorem _define_constants_missing_constant `{Uncertainties} `{RegistryCache}
    use_corr s obj nominal (i : nat) key :
  fresh_constants (ureg s) obj nominal ->
  measured_constants !! i = Some key ->
  use_corr = false \/ (i < 6)%nat ->
  _define_constants use_corr (forget key s) = Raise (KeyError key).
Proof.
  intros [Hu Hs Hd] Hi Hmode.
  assert (Hnames : forall k, In k measured_constants -> k <> key ->
                             _units (ureg (forget key s)) !! k = Some (obj k)).
  { intros k Hin Hne. cbn [forget ureg _units].
    rewrite lookup_delete_ne by congruence. now apply Hu. }
  assert (Hgone : _units (ureg (forget key s)) !! key = None).
  { cbn [forget ureg _units]. apply lookup_delete_eq. }
  assert (Hsame : converters (ureg (forget key s)) = converters (ureg s)) by reflexivity.
  assert (Hsrc : sources (forget key s) = sources s) by reflexivity.
  generalize dependent (forget key s). intros t Hnames Hgone Hsame Hsrc.
  unfold _define_constants.
  assert (Hfirst : (i < 6)%nat \/ ((6 <= i)%nat /\ use_corr = false)).
  { destruct Hmode as [->|Hlt]; [|now left].
    destruct (Nat.lt_ge_cases i 6); [now left | now right]. }
  clear Hmode.
  do 11 (destruct i as [|i];
    [ injection Hi as <-;
      destruct Hfirst as [Hlt|[Hge ->]]; try (exfalso; lia);
      repeat first
        [ rewrite (bind_Raise _ _ _ _ (get_scale_missing _ _ Hgone)); reflexivity
        | erewrite bind_Ok;
          [| eapply get_scale_Ok;
             [ apply Hnames; [in_table | discriminate]
             | rewrite Hsame; apply Hs; in_table ] ] ];
      cbv zeta; cbn [fst snd];
      (erewrite bind_Ok; [| cbv [bind ufloat ret]; cbn [ureg sources]; reflexivity]);
      cbv beta iota;
      do 6 (erewrite bind_Ok;
            [| eapply _set_Ok; norm; apply Hnames; [in_table | discriminate]]; norm);
      repeat first
        [ erewrite bind_Raise;
          [| apply define_independent_missing; norm; exact Hgone]; reflexivity
        | erewrite bind_Ok;
          [| eapply define_independent_Ok; norm;
             [ apply Hnames; [in_table | discriminate]
             | rewrite !lookup_insert_ne
                 by (intros E; apply Hd in E; [discriminate E | in_table ..]);
               rewrite Hsame; apply Hs; in_table ] ];
          norm ]
    |]).
  discriminate Hi.
Qed.

Lemma _define_constants_missing_constant_witness :
  @_define_constants spec_package scale_cache true (forget "m_u" sample_state)
    = Raise (KeyError "m_u") /\
  @_define_constants spec_package scale_cache false (forget "d_220" sample_state)
    = Raise (KeyError "d_220").
Proof.
  split.
  - apply (@_define_constants_missing_constant spec_package scale_cache true
             sample_state sample_obj sample_nominal 2 "m_u" sample_fresh eq_refl).
    right. lia.
  - apply (@_define_constants_missing_constant spec_package scale_cache false
             sample_state sample_obj sample_nominal 7 "d_220" sample_fresh eq_refl).
    now left.
Defined.

(** ** What the correlated mode stores *)

(** X4: in correlated mode, when the package returns six values, they become
    unchanged and in order the scales of R_inf, g_e, m_u, m_e, m_p and m_n;
    the five other constants get independent uncertain numbers on the
    sources that follow those of the package. *)
Theorem correlated_mode_stores_package_values `{Uncertainties} `{RegistryCache}
    s obj nominal vs k :
  fresh_constants (ureg s) obj nominal ->
  correlated_values_norm (correlated_defs nominal) corr (sources s) = Ok (vs, k) ->
  length vs = 6%nat ->
  exists s',
    _define_constants true s = Ok (tt, s') /\
    sources s' = (5 + k)%nat /\
    (forall (i : nat) key sigma v,
        correlated_constants !! i = Some (key, sigma) -> vs !! i = Some v ->
        scale_of (ureg s') key = Some (Uncertain v)) /\
    (forall (j : nat) key sigma,
        uncorrelated_constants !! j = Some (key, sigma) ->
        scale_of (ureg s') key =
        Some (Uncertain (independent (nominal key) sigma (j + k)%nat))).
Proof.
  intros Hf E Hlen.
  do 7 (destruct vs as [|? vs]; try discriminate Hlen).
  eexists. split; [apply (_define_constants_correlated _ _ _ Hf _ _ _ _ _ _ _ E)|].
  cbn [ureg sources]. split; [reflexivity|]. split.
  - intros i key sigma v Hi Hv.
    apply (with_constants_scale _ _ nominal _ i _ _ Hf); [reflexivity|].
    do 6 (destruct i as [|i];
          [injection Hi as <- _; injection Hv as <-; reflexivity|]).
    discriminate Hi.
  - intros j key sigma Hj.
    apply (with_constants_scale _ _ nominal _ (6 + j) _ _ Hf); [reflexivity|].
    do 5 (destruct j as [|j]; [injection Hj as <- <-; reflexivity|]).
    discriminate Hj.
Qed.

Lemma correlated_mode_stores_package_values_witness :
  exists s',
    @_define_constants spec_package scale_cache true sample_state = Ok (tt, s') /\
    sources s' = 11%nat /\
    scale_of (ureg s') "d_220" =
    Some (Uncertain (independent 1.920155716e-10 sigma_d_220 7%nat)).
Proof.
  destruct (@correlated_values_norm spec_package (correlated_defs sample_nominal) corr 0%nat)
    as [[vs k]|e] eqn:E; [|vm_compute in E; discriminate E].
  assert (Hk : k = 6%nat /\ length vs = 6%nat).
  { vm_compute in E. injection E as <- <-. split; reflexivity. }
  destruct Hk as [-> Hlen].
  destruct (@correlated_mode_stores_package_values spec_package scale_cache
              sample_state sample_obj sample_nominal vs 6%nat sample_fresh E Hlen)
    as (s' & Hrun & Hsrc & _ & Hrest).
  exists s'. split; [exact Hrun|]. split; [exact Hsrc|].
  exact (Hrest 1%nat "d_220" sigma_d_220 eq_refl).
Defined.

(** ** [main] without uncertainties *)

Lemma convert_ureg `{QuantitySystem} args s l s' :
  convert args s = Ok (l, s') -> ureg s' = ureg s.
Proof.
  rewrite convert_run.
  destruct (Quantity _ _ _) as [[x k]|]; [|discriminate].
  destruct (truthy_str (Args.to args));
    [ destruct (to x _ (ureg s) k) as [[y k']|]
    | destruct (to_base_units x (ureg s) k) as [[y k']|] ];
    try discriminate; intros [= _ <-]; reflexivity.
Qed.

(** X5: without [-U], a run that completes has not touched the table of
    names or any scale, has set the default system to the one requested, and
    formats the nominal value alone under the format of [prec] significant
    figures, also when the converted magnitude is an uncertain number. *)
Theorem main_without_uncertainties
    `{QuantitySystem} `{Uncertainties} `{RegistryCache} `{Formatting}
    args s l shown s' :
  Args.unc args = false ->
  main_format args s = Ok ((l, shown), s') ->
  _units (ureg s') = _units (ureg s) /\
  converters (ureg s') = converters (ureg s) /\
  default_system (ureg s') = Args.system args /\
  shown = ("." ++ pretty (Args.prec args) ++ "g",
           {| magnitude := MFloat (nominal_value (as_ufloat (magnitude (nq l))));
              units := units (nq l) |}).
Proof.
  intros Hunc Hrun. unfold main_format in Hrun.
  apply bind_inv in Hrun as ([] & s1 & Hconf & Hrun).
  apply bind_inv in Hrun as (l' & s2 & Hconv & Hrun).
  apply bind_inv in Hrun as (p & s3 & Huse & Hrun).
  injection Hrun as <- <- <-.
  unfold use_unc in Huse. rewrite Hunc in Huse. injection Huse as <- <-.
  pose proof (convert_ureg _ _ _ _ Hconv) as Hreg.
  destruct (convert_fmt _ _ _ _ Hconv) as [Hfmt _].
  injection Hconf as <-. cbn [ureg] in Hreg. rewrite Hreg.
  cbn [_units converters default_system].
  split; [reflexivity|]. split; [reflexivity|]. split; [reflexivity|].
  rewrite select_format_nominal, Hfmt. reflexivity.
Qed.

Lemma main_without_uncertainties_witness :
  exists s',
    @main_format scale_only spec_package scale_cache refusing gram_args sample_state
    = Ok (({| q := {| magnitude := MFloat 1; units := "m_e" |};
              nq := {| magnitude := MFloat (9.1093837015e-31 / 0.001); units := "gram" |};
              unc := None; fmt := ".6g" |},
           (".6g", {| magnitude := MFloat (9.1093837015e-31 / 0.001); units := "gram" |})),
          s') /\
    converters (ureg s') = converters sample_ureg.
Proof.
  eexists. split; [vm_compute; reflexivity|].
  match goal with
  | |- converters (ureg ?t) = _ =>
      assert (Hrun : exists l shown,
                 @main_format scale_only spec_package scale_cache refusing
                   gram_args sample_state = Ok ((l, shown), t))
        by (eexists; eexists; vm_compute; reflexivity);
      destruct Hrun as (l & shown & Hrun);
      exact (proj1 (proj2 (@main_without_uncertainties scale_only spec_package scale_cache
                             refusing gram_args sample_state l shown t eq_refl Hrun)))
  end.
Defined.

(** ** [main] when the uncertainties package is not installed *)

(** X6: with [-U] and no uncertainties package, [main] raises "Failed to
    import uncertainties library!" once the conversion has completed; an
    error of the conversion itself is raised first. *)
Theorem main_requires_uncertainties
    `{QuantitySystem} `{Uncertainties} `{RegistryCache} `{Formatting} args s sc :
  Args.unc args = true ->
  HAS_UNCERTAINTIES = false ->
  configure args s = Ok (tt, sc) ->
  main args s =
  match convert args sc with
  | Ok _ => Raise uncertainties_missing
  | Raise e => Raise e
  end.
Proof.
  intros Hunc Hhas Hconf. unfold main, main_format.
  unfold bind at 1. unfold bind at 1. rewrite Hconf.
  unfold bind at 1. destruct (convert args sc) as [[l s1]|e]; [|reflexivity].
  unfold bind, use_unc, raise. rewrite Hunc, Hhas. reflexivity.
Qed.

Lemma main_requires_uncertainties_witness :
  @main scale_only no_package scale_cache (recorded "1") sample_args sample_state
    = Raise uncertainties_missing /\
  @main scale_only no_package scale_cache (recorded "1") furlong_args sample_state
    = Raise undefined_unit.
Proof.
  split.
  - exact (@main_requires_uncertainties scale_only no_package scale_cache (recorded "1")
             sample_args sample_state _ eq_refl eq_refl eq_refl).
  - exact (@main_requires_uncertainties scale_only no_package scale_cache (recorded "1")
             furlong_args sample_state _ eq_refl eq_refl eq_refl).
Defined.

(** ** The format with uncertainty *)

(** X7: when at least one digit is requested and at least one can be
    extracted, the smaller of the two numbers is used, the format is
    [.<digits>uS], and the quantity is printed with its uncertain magnitude. *)
Theorem uncertainty_format_selected `{Formatting} args l s d :
  digits_extractable (fmt l) (magnitude (nq l)) = Some d ->
  0 < d ->
  0 < Args.prec_unc args ->
  let p := Z.min (Args.prec_unc args) d in
  clamp_prec_unc args l s = Ok (p, one_more_source s) /\
  0 < p /\
  select_format p l = ("." ++ pretty p ++ "uS", nq l).
Proof.
  intros Hd Hpos Hreq p.
  assert (Hp : 0 < p) by (unfold p; lia).
  split; [|split; [exact Hp|]].
  - rewrite (clamp_prec_unc_run _ _ _ _ Hd). f_equal. f_equal. unfold p. lia.
  - unfold select_format. apply Z.ltb_lt in Hp. now rewrite Hp.
Qed.

Lemma uncertainty_format_selected_witness :
  @clamp_prec_unc (recorded "(9.1093837015+/-0.0000000028)e-31")
    sample_args sample_uncertain_locals sample_state
    = Ok (2, one_more_source sample_state) /\
  select_format 2 sample_uncertain_locals = (".2uS", nq sample_uncertain_locals).
Proof.
  destruct (@uncertainty_format_selected (recorded "(9.1093837015+/-0.0000000028)e-31")
              sample_args sample_uncertain_locals sample_state 2 eq_refl eq_refl eq_refl)
    as (Hclamp & _ & Hsel).
  split; [exact Hclamp | exact Hsel].
Defined.

(** X8: a converted magnitude that is a plain float is printed as it is,
    under the format of [prec] figures, whatever the flags: [use_unc] yields
    0 digits whenever it completes. *)
Theorem float_magnitude_is_printed_plain
    `{Uncertainties} `{RegistryCache} `{Formatting} args l s f p s' :
  magnitude (nq l) = MFloat f ->
  use_unc args l s = Ok (p, s') ->
  p = 0 /\ select_format p l = (fmt l, nq l).
Proof.
  intros Hm Hrun.
  assert (Hp := plain_magnitude_uses_no_uncertainty_digit _ _ _ _ _ _ Hm Hrun).
  subst p. split; [reflexivity|].
  rewrite select_format_nominal, Hm. cbn [as_ufloat lift_plain nominal_value].
  destruct (nq l) as [m un]. cbn in Hm |- *. now subst m.
Qed.

Lemma float_magnitude_is_printed_plain_witness :
  exists s',
    @use_unc spec_package scale_cache refusing sample_args sample_locals sample_state
      = Ok (0, s') /\
    select_format 0 sample_locals = (".12g", nq sample_locals).
Proof.
  assert (Hrun : exists s', @use_unc spec_package scale_cache refusing
                              sample_args sample_locals sample_state = Ok (0, s'))
    by (eexists; vm_compute; reflexivity).
  destruct Hrun as [s' Hrun]. exists s'. split; [exact Hrun|].
  exact (proj2 (@float_magnitude_is_printed_plain spec_package scale_cache refusing
                  sample_args sample_locals sample_state _ 0 s' eq_refl Hrun)).
Defined.

(** ** Digits that cannot be extracted *)

(** X9: for an uncertain magnitude whose formatting raises, or whose
    rendering holds no [+/-], the suppressed block leaves [unc] at [None]
    and line 210 raises [TypeError]. *)
Theorem clamp_prec_unc_raises_without_digits `{Formatting} args l s u :
  magnitude (nq l) = MUFloat u ->
  unc l = None ->
  (exists e, format_ufloat (fmt l) u = Raise e) \/
  (exists full, format_ufloat (fmt l) u = Ok full /\
                forall pre rest, full <> pre ++ "+/-" ++ rest) ->
  clamp_prec_unc args l s = Raise TypeError.
Proof.
  intros Hm Hunc Hcase. apply clamp_prec_unc_without_digits; [|exact Hunc].
  unfold digits_extractable. rewrite Hm.
  destruct Hcase as [[e ->]|(full & -> & Hno)]; [reflexivity|].
  unfold search_group1.
  destruct (find_plus_minus full) as [rest|] eqn:E; [|reflexivity].
  destruct (find_plus_minus_Some _ _ E) as (pre & Hfull & _).
  now destruct (Hno pre rest).
Qed.

Lemma clamp_prec_unc_raises_without_digits_witness :
  @clamp_prec_unc refusing sample_args sample_uncertain_locals sample_state
    = Raise TypeError.
Proof.
  apply (@clamp_prec_unc_raises_without_digits refusing sample_args
           sample_uncertain_locals sample_state _ eq_refl eq_refl).
  left. now exists ValueError.
Defined.

(** ** An empty target unit *)

(** X10: an empty target unit converts to base units, like no target. *)
Theorem convert_empty_target `{QuantitySystem} args args' s :
  Args.fr args = Args.fr args' ->
  Args.prec args = Args.prec args' ->
  Args.to args = Some "" ->
  Args.to args' = None ->
  convert args s = convert args' s.
Proof.
  intros Hfr Hprec Hto Hto'.
  rewrite !convert_run, Hfr, Hprec, Hto, Hto'. reflexivity.
Qed.

Lemma convert_empty_target_witness :
  @convert scale_only empty_target_args sample_state = Ok (sample_locals, sample_state).
Proof.
  rewrite (@convert_empty_target scale_only empty_target_args sample_args sample_state
             eq_refl eq_refl eq_refl eq_refl).
  reflexivity.
Defined.

(** ** The digits that the regular expression extracts *)

Lemma take_all p s : all_chars p (take p s) = true.
Proof.
  induction s as [|c s IH]; [reflexivity|].
  cbn [take]. destruct (p c) eqn:E; [|reflexivity].
  cbn [all_chars]. now rewrite E.
Qed.

Lemma take_head p s c g :
  take p s = String c g -> exists s', s = String c s'.
Proof.
  destruct s as [|c' s']; [discriminate|].
  cbn [take]. destruct (p c'); [|discriminate].
  intros [= <- _]. now exists s'.
Qed.

Lemma skip_stops p s c s' : skip p s = String c s' -> p c = false.
Proof.
  induction s as [|c0 s IH]; [discriminate|].
  cbn [skip]. destruct (p c0) eqn:E; [exact IH|].
  now intros [= <- _].
Qed.

Lemma length_take p s : (String.length (take p s) <= String.length s)%nat.
Proof.
  induction s as [|c s IH]; [reflexivity|].
  cbn [take]. destruct (p c); cbn [String.length]; lia.
Qed.

Lemma length_skip p s : (String.length (skip p s) <= String.length s)%nat.
Proof.
  induction s as [|c s IH]; [reflexivity|].
  cbn [skip]. destruct (p c); cbn [String.length]; lia.
Qed.

Lemma length_remove_dots s : (String.length (remove_dots s) <= String.length s)%nat.
Proof.
  induction s as [|c s IH]; [reflexivity|].
  cbn [remove_dots]. destruct (is_dot c); cbn [String.length]; lia.
Qed.

Lemma find_plus_minus_length s : forall rest,
  find_plus_minus s = Some rest ->
  (String.length rest + 3 <= String.length s)%nat.
Proof.
  induction s as [|a s IH]; intros rest; [discriminate|].
  cbn [find_plus_minus]. destruct s as [|b [|c s']]; try discriminate.
  destruct (Ascii.eqb a "+" && Ascii.eqb b "/" && Ascii.eqb c "-").
  - intros [= <-]. cbn [String.length]. lia.
  - intros Hrest. specialize (IH _ Hrest). cbn [String.length] in *. lia.
Qed.

Lemma remove_dots_digits g :
  all_chars (fun c => is_digit c || is_dot c) g = true ->
  all_chars is_digit (remove_dots g) = true.
Proof.
  induction g as [|c g IH]; [reflexivity|].
  cbn [all_chars remove_dots]. intros Hall.
  apply andb_prop in Hall as [Hc Hg].
  destruct (is_dot c) eqn:E; [now apply IH|].
  cbn [all_chars]. rewrite orb_false_r in Hc. rewrite Hc. now apply IH.
Qed.

(** X11: the group that the regular expression captures, dots removed,
    holds digits only; the group starts with a digit other than 0; and the
    number of digits is at most the length of the rendering less the three
    characters of [+/-]. *)
Theorem search_group1_shape full g :
  search_group1 full = Ok g ->
  all_chars is_digit (remove_dots g) = true /\
  (forall c g', g = String c g' -> is_digit c = true /\ is_zero c = false) /\
  0 <= len (remove_dots g) <= len full - 3.
Proof.
  unfold search_group1.
  destruct (find_plus_minus full) as [rest|] eqn:E; [|discriminate].
  intros [= <-]. split; [|split].
  - apply remove_dots_digits, take_all.
  - intros c g' Hg.
    pose proof (take_all (fun c => is_digit c || is_dot c)
                  (skip (fun c => is_zero c || is_dot c) rest)) as Hall.
    rewrite Hg in Hall. cbn [all_chars] in Hall.
    apply andb_prop in Hall as [Hc _].
    destruct (take_head _ _ _ _ Hg) as [s' Hs'].
    apply skip_stops in Hs'. apply orb_false_elim in Hs' as [Hz Hd].
    rewrite Hd, orb_false_r in Hc. now split.
  - pose proof (find_plus_minus_length _ _ E).
    pose proof (length_skip (fun c => is_zero c || is_dot c) rest).
    pose proof (length_take (fun c => is_digit c || is_dot c)
                  (skip (fun c => is_zero c || is_dot c) rest)).
    pose proof (length_remove_dots
                  (take (fun c => is_digit c || is_dot c)
                     (skip (fun c => is_zero c || is_dot c) rest))).
    unfold len. lia.
Qed.

Lemma search_group1_shape_witness :
  all_chars is_digit (remove_dots "1.20") = true /\
  0 <= len (remove_dots "1.20") <= len "12.3+/-1.20" - 3.
Proof.
  destruct (search_group1_shape "12.3+/-1.20" "1.20" eq_refl) as (Hd & _ & Hlen).
  split; [exact Hd | exact Hlen].
Defined.

(** X12: the search of line 205 fails exactly when the rendering holds no
    [+/-], and the only error is the [AttributeError] of [None.group]. *)
Theorem search_group1_fails_iff full :
  (forall e, search_group1 full = Raise e -> e = AttributeError) /\
  (search_group1 full = Raise AttributeError <->
   forall pre rest, full <> pre ++ "+/-" ++ rest).
Proof.
  unfold search_group1.
  destruct (find_plus_minus full) as [rest|] eqn:E.
  - split; [discriminate|]. split; [discriminate|].
    intros Hno. destruct (find_plus_minus_Some _ _ E) as (pre & Hfull & _).
    now destruct (Hno pre rest).
  - split; [now intros e [= <-]|]. split; [|reflexivity].
    intros _. now apply find_plus_minus_None.
Qed.

Lemma search_group1_fails_iff_witness :
  "no sign" <> "no" ++ "+/-" ++ "gn".
Proof.
  exact (proj1 (proj2 (search_group1_fails_iff "no sign")) eq_refl "no" "gn").
Defined.

(** ** [main] on a registry that lacks a measured constant *)

(** The build on a registry that lacks one measured constant reaches the
    read of that constant, and raises its [KeyError], in three cases: the
    constant is one of the six read first; the mode is independent; or the
    package returns the six correlated values. *)
Lemma _define_constants_reaches_missing `{Uncertainties} `{RegistryCache}
    use_corr s obj nominal (i : nat) key :
  fresh_constants (ureg s) obj nominal ->
  measured_constants !! i = Some key ->
  use_corr = false \/ (i < 6)%nat \/
    (exists vs k,
        correlated_values_norm (correlated_defs nominal) corr (sources s) = Ok (vs, k) /\
        length vs = 6%nat) ->
  _define_constants use_corr (forget key s) = Raise (KeyError key).
Proof.
  intros [Hu Hs Hd] Hi Hmode.
  assert (Hnames : forall k, In k measured_constants -> k <> key ->
                             _units (ureg (forget key s)) !! k = Some (obj k)).
  { intros k Hin Hne. cbn [forget ureg _units].
    rewrite lookup_delete_ne by congruence. now apply Hu. }
  assert (Hgone : _units (ureg (forget key s)) !! key = None).
  { cbn [forget ureg _units]. apply lookup_delete_eq. }
  assert (Hsame : converters (ureg (forget key s)) = converters (ureg s)) by reflexivity.
  assert (Hsrc : sources (forget key s) = sources s) by reflexivity.
  generalize dependent (forget key s). intros t Hnames Hgone Hsame Hsrc.
  unfold _define_constants.
  assert (Hfirst : (i < 6)%nat \/ ((6 <= i)%nat /\ use_corr = false) \/
                   ((6 <= i)%nat /\ use_corr = true /\
                    exists v1 v2 v3 v4 v5 v6 k,
                      correlated_values_norm
                        [(Plain (nominal "R_inf"), sigma_R_inf);
                         (Plain (nominal "g_e"), sigma_g_e);
                         (Plain (nominal "m_u"), sigma_m_u);
                         (Plain (nominal "m_e"), sigma_m_e);
                         (Plain (nominal "m_p"), sigma_m_p);
                         (Plain (nominal "m_n"), sigma_m_n)] corr (sources t)
                      = Ok ([v1; v2; v3; v4; v5; v6], k))).
  { destruct (Nat.lt_ge_cases i 6) as [Hlt|Hge]; [now left|]. right.
    destruct use_corr; [right | now left].
    destruct Hmode as [Hf|[Hlt|(vs & k & E & Hlen)]]; [discriminate | lia |].
    split; [exact Hge|]. split; [reflexivity|].
    do 6 (destruct vs as [|? vs]; [discriminate Hlen|]).
    destruct vs; [|discriminate Hlen].
    rewrite Hsrc. do 7 eexists. exact E. }
  clear Hmode.
  do 11 (destruct i as [|i];
    [ injection Hi as <-;
      destruct Hfirst as [Hlt|[[Hge ->]|(Hge & -> & v1 & v2 & v3 & v4 & v5 & v6 & k & E)]];
      try (exfalso; lia);
      repeat first
        [ rewrite (bind_Raise _ _ _ _ (get_scale_missing _ _ Hgone)); reflexivity
        | erewrite bind_Ok;
          [| eapply get_scale_Ok;
             [ apply Hnames; [in_table | discriminate]
             | rewrite Hsame; apply Hs; in_table ] ] ];
      cbv zeta; cbn [fst snd];
      (erewrite bind_Ok;
         [| first
              [ cbv [bind ufloat ret]; cbn [ureg sources]; reflexivity
              | cbv [except_AttributeError bind ret raise call_correlated_values_norm];
                rewrite E; reflexivity ] ]);
      cbv beta iota;
      do 6 (erewrite bind_Ok;
            [| eapply _set_Ok; norm; apply Hnames; [in_table | discriminate]]; norm);
      repeat first
        [ erewrite bind_Raise;
          [| apply define_independent_missing; norm; exact Hgone]; reflexivity
        | erewrite bind_Ok;
          [| eapply define_independent_Ok; norm;
             [ apply Hnames; [in_table | discriminate]
             | rewrite !lookup_insert_ne
                 by (intros E'; apply Hd in E'; [discriminate E' | in_table ..]);
               rewrite Hsame; apply Hs; in_table ] ];
          norm ]
    |]).
  discriminate Hi.
Qed.

(** X13: with [-U], on a registry that lacks a measured constant, [main]
    raises the [KeyError] of that constant after the conversion has
    completed, whatever was converted, whenever the build reaches the read
    of that constant: with [-C] (independent mode), or for the six
    constants subject to correlation, which are read first, or when the
    package returns the six correlated values. *)
Theorem main_needs_every_measured_constant
    `{QuantitySystem} `{Uncertainties} `{RegistryCache} `{Formatting}
    args s obj nominal (i : nat) key l s1 :
  Args.unc args = true ->
  HAS_UNCERTAINTIES = true ->
  fresh_constants (ureg s) obj nominal ->
  measured_constants !! i = Some key ->
  Args.corr args = false \/ (i < 6)%nat \/
    (exists vs k,
        correlated_values_norm (correlated_defs nominal) corr (sources s1) = Ok (vs, k) /\
        length vs = 6%nat) ->
  (let* _ := configure args in convert args) (forget key s) = Ok (l, s1) ->
  main args (forget key s) = Raise (KeyError key).
Proof.
  intros Hunc Hhas Hf Hi Hmode Hconv.
  apply bind_inv in Hconv as ([] & sc & Hconf & Hconv).
  pose proof (convert_ureg _ _ _ _ Hconv) as Hreg.
  injection Hconf as <-. cbn [ureg forget] in Hreg.
  assert (Hbuild : _define_constants (Args.corr args) s1 = Raise (KeyError key)).
  { destruct s1 as [r k]. cbn [ureg] in Hreg. subst r.
    pose (t := {| ureg := set_converters (converters (ureg s))
                    {| _units := _units (ureg s);
                       converters := converters (ureg s);
                       _root_units_cache := _root_units_cache (ureg s);
                       _cache := _cache (ureg s);
                       auto_reduce_dimensions := true;
                       autoconvert_offset_to_baseunit := true;
                       contexts := ["Gau"; "ESU"; "sp"; "energy"; "boltzmann"]
                                   ++ contexts (ureg s);
                       default_system := Args.system args |};
                  sources := k |}).
    assert (Hft : fresh_constants (ureg t) obj nominal).
    { destruct Hf as [Hu Hs Hd]. split; [exact Hu | exact Hs | exact Hd]. }
    exact (_define_constants_reaches_missing (Args.corr args) t obj nominal i key
             Hft Hi Hmode). }
  unfold main. erewrite bind_Raise; [reflexivity|].
  unfold main_format.
  erewrite bind_Ok; [|reflexivity].
  erewrite bind_Ok; [|exact Hconv].
  erewrite bind_Raise; [reflexivity|].
  unfold use_unc. rewrite Hunc, Hhas. cbn [negb].
  erewrite bind_Raise; [reflexivity | exact Hbuild].
Qed.

Lemma main_needs_every_measured_constant_witness :
  @main scale_only spec_package scale_cache (recorded "1") sample_args
    (forget "K_alpha_W_d_220" sample_state)
  = Raise (KeyError "K_alpha_W_d_220") /\
  @main scale_only spec_package scale_cache (recorded "1") correlated_args
    (forget "d_220" sample_state)
  = Raise (KeyError "d_220").
Proof.
  assert (Hconv : exists l s1,
             (let* _ := configure sample_args in @convert scale_only sample_args)
               (forget "K_alpha_W_d_220" sample_state) = Ok (l, s1))
    by (eexists; eexists; vm_compute; reflexivity).
  assert (Hcorr : exists l s1,
             (let* _ := configure correlated_args in @convert scale_only correlated_args)
               (forget "d_220" sample_state) = Ok (l, s1) /\
             exists vs k,
               @correlated_values_norm spec_package (correlated_defs sample_nominal)
                 corr (sources s1) = Ok (vs, k) /\
               length vs = 6%nat).
  { eexists; eexists; split; [vm_compute; reflexivity|].
    eexists; eexists; split; [vm_compute; reflexivity | reflexivity]. }
  destruct Hconv as (l & s1 & Hconv).
  destruct Hcorr as (l' & s1' & Hconv' & Hpkg).
  split.
  - exact (@main_needs_every_measured_constant scale_only spec_package scale_cache
             (recorded "1") sample_args sample_state sample_obj sample_nominal
             10 "K_alpha_W_d_220" l s1 eq_refl eq_refl sample_fresh eq_refl
             (or_introl eq_refl) Hconv).
  - exact (@main_needs_every_measured_constant scale_only spec_package scale_cache
             (recorded "1") correlated_args sample_state sample_obj sample_nominal
             7 "d_220" l' s1' eq_refl eq_refl sample_fresh eq_refl
             (or_intror (or_intror Hpkg)) Hconv').
Defined.

(** ** [main] with correlations when numpy is missing *)

(** X14: with [-U] and without [-C], when the correlated construction of
    the package is missing, [main] raises "Correlation cannot be
    calculated!" after the conversion has completed. *)
Theorem main_correlation_needs_numpy
    `{QuantitySystem} `{Uncertainties} `{RegistryCache} `{Formatting}
    args s obj nominal l s1 :
  Args.unc args = true ->
  Args.corr args = true ->
  HAS_UNCERTAINTIES = true ->
  fresh_constants (ureg s) obj nominal ->
  (let* _ := configure args in convert args) s = Ok (l, s1) ->
  correlated_values_norm (correlated_defs nominal) corr (sources s1)
    = Raise AttributeError ->
  main args s = Raise numpy_missing.
Proof.
  intros Hunc Hcorr Hhas Hf Hconv Hpkg.
  apply bind_inv in Hconv as ([] & sc & Hconf & Hconv).
  pose proof (convert_ureg _ _ _ _ Hconv) as Hreg.
  injection Hconf as <-. cbn [ureg] in Hreg.
  assert (Hf1 : fresh_constants (ureg s1) obj nominal).
  { rewrite Hreg. destruct Hf as [Hu Hs Hd]. split; [exact Hu | exact Hs | exact Hd]. }
  unfold main. erewrite bind_Raise; [reflexivity|].
  unfold main_format.
  erewrite bind_Ok; [|reflexivity].
  erewrite bind_Ok; [|exact Hconv].
  erewrite bind_Raise; [reflexivity|].
  unfold use_unc. rewrite Hunc, Hhas, Hcorr. cbn [negb].
  erewrite bind_Raise; [reflexivity|].
  exact (_define_constants_AttributeError s1 obj nominal Hf1 Hpkg).
Qed.

Lemma main_correlation_needs_numpy_witness :
  @main scale_only package_without_numpy scale_cache (recorded "1")
    correlated_args sample_state
  = Raise numpy_missing.
Proof.
  assert (Hconv : exists l s1,
             (let* _ := configure correlated_args in @convert scale_only correlated_args)
               sample_state = Ok (l, s1))
    by (eexists; eexists; vm_compute; reflexivity).
  destruct Hconv as (l & s1 & Hconv).
  exact (@main_correlation_needs_numpy scale_only package_without_numpy scale_cache
           (recorded "1") correlated_args sample_state sample_obj sample_nominal
           l s1 eq_refl eq_refl eq_refl sample_fresh Hconv eq_refl).
Defined.
